(** * MernAuthServer: the authentication service, embedded and verified

    A shallow embedding of [src/service/auth.service.ts].  The three
    Mongoose collections are finite maps from document id to document,
    the service functions are computations in a state-and-exception
    monad over those collections (a thrown [AppError] keeps every write
    made before it, as in JavaScript), and the capabilities the service
    imports (hashing, token signing, mail delivery, templates, the
    application origin) are the fields of an environment record.

    One call is served at one clock reading: every [Date.now()] and
    [new Date()] within it reads the same [now].  Between calls the
    clock is set freely. *)

From stdpp Require Import gmap strings list fin_maps pretty.
From Stdlib Require Import ZArith.

Local Open Scope Z_scope.

(** ** Constants *)

(** Modelled from the spec: [constants/http] is not part of the sources;
    the failure kinds are the five of the error taxonomy. *)
Inductive HttpStatusCode :=
  | CONFLICT
  | INTERNAL_SERVER_ERROR
  | NOT_FOUND
  | TOO_MANY_REQUESTS
  | UNAUTHORIZED.

(** Modelled from the spec: [constants/verificationCodeType], the two
    code types of the data model. *)
Inductive VerificationCodeType :=
  | EmailVerification
  | PasswordReset.

Global Instance HttpStatusCode_eq_dec : EqDecision HttpStatusCode.
Proof. solve_decision. Defined.

Global Instance VerificationCodeType_eq_dec : EqDecision VerificationCodeType.
Proof. solve_decision. Defined.

(** Modelled from the spec: [utils/date].  Times are milliseconds, as
    returned by [Date.getTime]. *)
Definition ONE_DAY_MS : Z := 24 * 60 * 60 * 1000.
Definition FIVE_MINUTES_MS : Z := 5 * 60 * 1000.
Definition ONE_HOUR_MS : Z := 60 * 60 * 1000.
Definition THIRTY_DAYS_MS : Z := 30 * ONE_DAY_MS.
Definition ONE_YEAR_MS : Z := 365 * ONE_DAY_MS.

(** ** Documents *)

Abbreviation ObjectId := string (only parsing).

Record UserDocument := mkUser {
  email : string;
  password : string;
  verified : bool;
  user_createdAt : Z
}.

Record SessionDocument := mkSession {
  session_userId : ObjectId;
  userAgent : option string;
  session_expiresAt : Z;
  session_createdAt : Z
}.

Record VerificationCodeDocument := mkCode {
  code_userId : ObjectId;
  code_type : VerificationCodeType;
  code_expiresAt : Z;
  code_createdAt : Z
}.

(** A document handle as a query returns it: the primary key together
    with the fields.  The collections are keyed by [_id], so a handle's
    key is the key it was found under. *)
Record Document (A : Type) := mkDoc { _id : ObjectId; fields : A }.
Arguments mkDoc {A} _ _.
Arguments _id {A} _.
Arguments fields {A} _.

(** ** JavaScript objects handed back to the caller *)

Inductive JsValue :=
  | JStr (s : string)
  | JBool (b : bool)
  | JNum (n : Z).

Abbreviation JsObject := (gmap string JsValue) (only parsing).

Definition publicFields (u : Document UserDocument) : JsObject :=
  <["_id" := JStr (_id u)]>
    (<["email" := JStr (email (fields u))]>
      (<["verified" := JBool (verified (fields u))]>
        (<["createdAt" := JNum (user_createdAt (fields u))]> ∅))).

Definition toObject (u : Document UserDocument) : JsObject :=
  <["password" := JStr (password (fields u))]> (publicFields u).

(** Modelled from the spec: [omitPassword] is a method of the user model,
    which is not part of the sources; it returns the user object with the
    password field removed. *)
Definition omitPassword (u : Document UserDocument) : JsObject :=
  delete "password" (toObject u).

(** ** Capabilities

    [utils/jwt], [utils/bcrypt], [utils/sendMail], [utils/emailTemplates]
    and [constants/env] are not part of the sources; what the service
    uses of them is a parameter. *)

Inductive SignOptions :=
  | accessTokenSignOptions
  | refreshTokenSignOptions.

(** Token claims: a refresh token carries the session only, an access
    token the user as well. *)
Record TokenPayload := mkPayload {
  payload_userId : option ObjectId;
  payload_sessionId : ObjectId
}.

Record EmailTemplate := mkTemplate {
  subject : string;
  text : string;
  html : string
}.

Record MailParams := mkMail {
  mail_to : string;
  mail_template : EmailTemplate
}.

Record MailError := mkMailError {
  error_name : string;
  error_message : string
}.

(** What [sendMail] resolves to: [{ data, error }], where [data] holds
    the delivery id. *)
Record MailResponse := mkResponse {
  data_id : option string;
  mail_error : option MailError
}.

Record Env := mkEnv {
  APP_ORIGIN : string;
  hashValue : string → string;
  compareValue : string → string → bool;
  signToken : TokenPayload → SignOptions → string;
  verifyToken : string → SignOptions → option TokenPayload;
  sendMailResponse : MailParams → MailResponse;
  getVerifyEmailTemplate : string → EmailTemplate;
  getPasswordResetTemplate : string → EmailTemplate
}.

(** ** The world and the service monad *)

Record World := mkWorld {
  users : gmap ObjectId UserDocument;
  sessions : gmap ObjectId SessionDocument;
  codes : gmap ObjectId VerificationCodeDocument;
  now : Z;
  outbox : list MailParams;
  console : list string;
  issued : gset ObjectId
}.

Definition set_users (f : gmap ObjectId UserDocument → gmap ObjectId UserDocument)
    (w : World) : World :=
  mkWorld (f (users w)) (sessions w) (codes w) (now w) (outbox w) (console w) (issued w).

Definition set_sessions
    (f : gmap ObjectId SessionDocument → gmap ObjectId SessionDocument)
    (w : World) : World :=
  mkWorld (users w) (f (sessions w)) (codes w) (now w) (outbox w) (console w) (issued w).

Definition set_codes
    (f : gmap ObjectId VerificationCodeDocument → gmap ObjectId VerificationCodeDocument)
    (w : World) : World :=
  mkWorld (users w) (sessions w) (f (codes w)) (now w) (outbox w) (console w) (issued w).

Definition set_now (t : Z) (w : World) : World :=
  mkWorld (users w) (sessions w) (codes w) t (outbox w) (console w) (issued w).

Definition add_outbox (m : MailParams) (w : World) : World :=
  mkWorld (users w) (sessions w) (codes w) (now w) (outbox w ++ [m]) (console w)
    (issued w).

Definition add_console (line : string) (w : World) : World :=
  mkWorld (users w) (sessions w) (codes w) (now w) (outbox w) (console w ++ [line])
    (issued w).

Definition add_issued (id : ObjectId) (w : World) : World :=
  mkWorld (users w) (sessions w) (codes w) (now w) (outbox w) (console w)
    ({[ id ]} ∪ issued w).

(** The id the driver gives the next created document: one that names
    no stored document and was never handed out before. *)
Definition next_id (w : World) : ObjectId :=
  fresh (issued w ∪ dom (users w) ∪ dom (sessions w) ∪ dom (codes w)).

Record AppError := mkAppError {
  statusCode : HttpStatusCode;
  message : string
}.

Inductive Outcome (A : Type) :=
  | Ok (a : A)
  | Err (e : AppError).
Arguments Ok {A} _.
Arguments Err {A} _.

Definition M (A : Type) : Type := World → Outcome A * World.

Global Instance M_ret : MRet M := λ A a w, (Ok a, w).

Global Instance M_bind : MBind M := λ A B f m w,
  match m w with
  | (Ok a, w') => f a w'
  | (Err e, w') => (Err e, w')
  end.

Definition throw {A} (e : AppError) : M A := λ w, (Err e, w).

(** [try { body } catch (error) { handler(error) }] *)
Definition try_catch {A} (body : M A) (handler : AppError → M A) : M A := λ w,
  match body w with
  | (Ok a, w') => (Ok a, w')
  | (Err e, w') => handler e w'
  end.

Definition get {A} (f : World → A) : M A := λ w, (Ok (f w), w).
Definition modify (f : World → World) : M unit := λ w, (Ok tt, f w).

(** Modelled from the spec: [utils/appAssert] is not part of the sources.
    [appAssert(condition, httpStatusCode, message)] throws an [AppError]
    of that kind and message when the condition is falsy.  The service
    uses a nullable value that passed the assertion as present
    afterwards: [appAssertSome] is the same assertion on a nullable
    value. *)
Definition appAssert (condition : bool) (code : HttpStatusCode) (msg : string)
    : M unit :=
  if condition then mret tt else throw (mkAppError code msg).

Definition appAssertSome {A} (value : option A) (code : HttpStatusCode)
    (msg : string) : M A :=
  match value with
  | Some a => mret a
  | None => throw (mkAppError code msg)
  end.

(** *** The clock *)

Definition Date_now : M Z := get now.
Definition fiveMinutesAgo : M Z := t ← Date_now; mret (t - FIVE_MINUTES_MS).
Definition oneHourFromNow : M Z := t ← Date_now; mret (t + ONE_HOUR_MS).
Definition thirtyDaysFromNow : M Z := t ← Date_now; mret (t + THIRTY_DAYS_MS).
Definition oneYearFromNow : M Z := t ← Date_now; mret (t + ONE_YEAR_MS).

(** *** The console *)

Definition console_log (line : string) : M unit := modify (add_console line).
Definition console_error (line : string) : M unit := modify (add_console line).

(** ** The collections

    Modelled from the spec: the three models ([models/user.model],
    [models/session.model], [models/verificationCode.model]) are not
    part of the sources.  Each definition below is the Mongoose call of
    the same name on the store interface of the spec, restricted to the
    query shapes the service issues; [createdAt] is set at creation. *)

Definition find_by_email (e : string) (us : gmap ObjectId UserDocument)
    : option (Document UserDocument) :=
  (λ hit, mkDoc hit.2.1 hit.2.2)
    <$> list_find (λ kv, email kv.2 = e) (map_to_list us).

Definition recent_code (uid : ObjectId) (ty : VerificationCodeType) (since : Z)
    (kv : ObjectId * VerificationCodeDocument) : Prop :=
  code_userId kv.2 = uid ∧ code_type kv.2 = ty ∧ since < code_createdAt kv.2.

Global Instance recent_code_dec uid ty since kv : Decision (recent_code uid ty since kv).
Proof. unfold recent_code. apply _. Defined.

Definition valid_code (ty : VerificationCodeType) (gt : Z)
    (c : VerificationCodeDocument) : Prop :=
  code_type c = ty ∧ gt < code_expiresAt c.

Global Instance valid_code_dec ty gt c : Decision (valid_code ty gt c).
Proof. unfold valid_code. apply _. Defined.

Section Models.
Context (env : Env).

(** [UserModel.exists({ email })] *)
Definition UserModel_exists (e : string) : M (option ObjectId) :=
  get (λ w, _id <$> find_by_email e (users w)).

(** [UserModel.create({ email, password })]; the model hashes the
    password before it stores it, and [verified] defaults to false. *)
Definition UserModel_create (e pw : string) : M (Document UserDocument) := λ w,
  let id := next_id w in
  let u := mkUser e (hashValue env pw) false (now w) in
  (Ok (mkDoc id u), set_users (insert id u) (add_issued id w)).

(** [UserModel.findOne({ email })] *)
Definition UserModel_findOne (e : string) : M (option (Document UserDocument)) :=
  get (λ w, find_by_email e (users w)).

(** [UserModel.findByIdAndUpdate(id, update, { new })]: the stored
    document is updated; the call returns the updated document when
    [new] is set and the document as it was before the update
    otherwise (Mongoose's default). *)
Definition UserModel_findByIdAndUpdate (id : ObjectId)
    (update : UserDocument → UserDocument) (new : bool)
    : M (option (Document UserDocument)) := λ w,
  match users w !! id with
  | Some u =>
      (Ok (Some (mkDoc id (if new then update u else u))),
       set_users (insert id (update u)) w)
  | None => (Ok None, w)
  end.

(** [SessionModel.create({ userId, userAgent })]; [expiresAt] defaults
    to thirty days from now. *)
Definition SessionModel_create (uid : ObjectId) (ua : option string)
    : M (Document SessionDocument) := λ w,
  let id := next_id w in
  let s := mkSession uid ua (now w + THIRTY_DAYS_MS) (now w) in
  (Ok (mkDoc id s), set_sessions (insert id s) (add_issued id w)).

(** [SessionModel.findById(id)] *)
Definition SessionModel_findById (id : ObjectId)
    : M (option (Document SessionDocument)) :=
  get (λ w, mkDoc id <$> sessions w !! id).

(** [session.save()] *)
Definition session_save (s : Document SessionDocument) : M unit :=
  modify (set_sessions (insert (_id s) (fields s))).

(** [SessionModel.deleteMany({ userId })] *)
Definition SessionModel_deleteMany (uid : ObjectId) : M unit :=
  modify (set_sessions (filter (λ kv, session_userId kv.2 ≠ uid))).

(** [VerificationCodeModel.create({ userId, type, expiresAt })] *)
Definition VerificationCodeModel_create (uid : ObjectId)
    (ty : VerificationCodeType) (exp : Z)
    : M (Document VerificationCodeDocument) := λ w,
  let id := next_id w in
  let c := mkCode uid ty exp (now w) in
  (Ok (mkDoc id c), set_codes (insert id c) (add_issued id w)).

(** [VerificationCodeModel.findOne({ _id, type, expiresAt: { $gt } })] *)
Definition VerificationCodeModel_findOne (id : ObjectId)
    (ty : VerificationCodeType) (gt : Z)
    : M (option (Document VerificationCodeDocument)) :=
  get (λ w,
    match codes w !! id with
    | Some c => if decide (valid_code ty gt c) then Some (mkDoc id c) else None
    | None => None
    end).

(** [VerificationCodeModel.countDocuments({ userId, type,
    createdAt: { $gt } })] *)
Definition VerificationCodeModel_countDocuments (uid : ObjectId)
    (ty : VerificationCodeType) (since : Z) : M nat :=
  get (λ w, size (filter (recent_code uid ty since) (codes w))).

(** [code.deleteOne()] *)
Definition code_deleteOne (c : Document VerificationCodeDocument) : M unit :=
  modify (set_codes (delete (_id c))).

(** [sendMail({ to, ...template })] *)
Definition sendMail (params : MailParams) : M MailResponse := λ w,
  (Ok (sendMailResponse env params), add_outbox params w).

(** [user.comparePassword(value)]: the hashing capability's comparison
    of the value with the stored hash. *)
Definition comparePassword (user : Document UserDocument) (value : string) : bool :=
  compareValue env value (password (fields user)).
End Models.

(** ** The service *)

Record CreateAccountParams := mkCreateAccountParams {
  create_email : string;
  create_password : string;
  create_userAgent : option string
}.

Record LoginParams := mkLoginParams {
  login_email : string;
  login_password : string;
  login_userAgent : option string
}.

Record ResetPasswordParams := mkResetPasswordParams {
  reset_password : string;
  reset_verificationCode : string
}.

(** [{ user, accessToken, refreshToken }] *)
Record AuthResult := mkAuthResult {
  auth_user : JsObject;
  accessToken : string;
  refreshToken : string
}.

(** [{ accessToken, newRefreshToken }], the second possibly [undefined] *)
Record RefreshResult := mkRefreshResult {
  refresh_accessToken : string;
  newRefreshToken : option string
}.

(** [{ user }] *)
Record UserResult := mkUserResult { user : JsObject }.

(** [{ url, emailId }] or [{}] *)
Record ResetEmailResult := mkResetEmailResult {
  url : option string;
  emailId : option string
}.

(** The updates the service writes to a user: [{ password: hashed }] and
    [{ verified: true }]. *)
Definition set_password (hashed : string) (u : UserDocument) : UserDocument :=
  mkUser (email u) hashed (verified u) (user_createdAt u).

Definition set_verified (u : UserDocument) : UserDocument :=
  mkUser (email u) (password u) true (user_createdAt u).

(** [session.expiresAt = t] *)
Definition set_expiresAt (t : Z) (s : SessionDocument) : SessionDocument :=
  mkSession (session_userId s) (userAgent s) t (session_createdAt s).

(** A string is truthy when it is present and not empty. *)
Definition truthy (s : option string) : option string :=
  match s with
  | Some v => if decide (v = "") then None else Some v
  | None => None
  end.

(** [`${value}`] of a possibly undefined string *)
Definition interpolate (s : option string) : string := default "undefined" s.

Section Service.
Context (env : Env).

Definition createAccount (data : CreateAccountParams) : M AuthResult :=
  (* verify existing user doesnt exist *)
  existingUser ← UserModel_exists (create_email data);
  appAssert (bool_decide (existingUser = None)) CONFLICT "Email already in use";;
  (* create user *)
  user ← UserModel_create env (create_email data) (create_password data);
  let userId := _id user in
  (* create verification code *)
  expiresAt ← oneYearFromNow;
  verificationCode ← VerificationCodeModel_create userId EmailVerification expiresAt;
  let url := APP_ORIGIN env +:+ "/email/verify/" +:+ _id verificationCode in
  (* send verification email *)
  response ← sendMail env (mkMail (email (fields user)) (getVerifyEmailTemplate env url));
  (* ignore email errors for now *)
  match mail_error response with
  | Some error => console_error (error_name error +:+ ": " +:+ error_message error)
  | None => mret tt
  end;;
  (* create session *)
  session ← SessionModel_create userId (create_userAgent data);
  (* sign access token & refresh token *)
  let refreshToken := signToken env (mkPayload None (_id session)) refreshTokenSignOptions in
  let accessToken := signToken env (mkPayload (Some userId) (_id session)) accessTokenSignOptions in
  (* return user & tokens *)
  mret (mkAuthResult (omitPassword user) accessToken refreshToken).

Definition loginUser (params : LoginParams) : M AuthResult :=
  (* get user by email *)
  found ← UserModel_findOne (login_email params);
  user ← appAssertSome found UNAUTHORIZED "Invalid email or password";
  (* validate password from the request *)
  let isValid := comparePassword env user (login_password params) in
  user ← appAssertSome (Some user) UNAUTHORIZED "Invalid email or password";
  let userId := _id user in
  (* create a session *)
  session ← SessionModel_create userId (login_userAgent params);
  let sessionId := _id session in
  (* sign tokens *)
  let refreshToken := signToken env (mkPayload None sessionId) refreshTokenSignOptions in
  let accessToken := signToken env (mkPayload (Some (_id user)) sessionId) accessTokenSignOptions in
  (* return user and tokens *)
  mret (mkAuthResult (omitPassword user) accessToken refreshToken).

Definition refreshUserAccessToken (refreshToken : string) : M RefreshResult :=
  payload ← appAssertSome (verifyToken env refreshToken refreshTokenSignOptions)
              UNAUTHORIZED "Invalid refresh token";
  found ← SessionModel_findById (payload_sessionId payload);
  now ← Date_now;
  session ← appAssertSome
              (match found with
               | Some s => if decide (now < session_expiresAt (fields s)) then Some s else None
               | None => None
               end)
              UNAUTHORIZED "Session expired";
  (* refresh the session if it expires in the next 24hrs *)
  let sessionNeedsRefresh := bool_decide (session_expiresAt (fields session) - now ≤ ONE_DAY_MS) in
  session ← (if sessionNeedsRefresh then
               expiresAt ← thirtyDaysFromNow;
               let session := mkDoc (_id session) (set_expiresAt expiresAt (fields session)) in
               session_save session;;
               mret session
             else mret session);
  let newRefreshToken :=
    if sessionNeedsRefresh
    then Some (signToken env (mkPayload None (_id session)) refreshTokenSignOptions)
    else None in
  let accessToken :=
    signToken env (mkPayload (Some (session_userId (fields session))) (_id session))
      accessTokenSignOptions in
  mret (mkRefreshResult accessToken newRefreshToken).

Definition verifyEmail (code : string) : M UserResult :=
  (* get the verification code *)
  date ← Date_now;
  found ← VerificationCodeModel_findOne code EmailVerification date;
  validCode ← appAssertSome found NOT_FOUND "Invalid or expired verification code";
  (* get user by id and update user to verified true *)
  updated ← UserModel_findByIdAndUpdate (code_userId (fields validCode))
              set_verified true;
  updatedUser ← appAssertSome updated INTERNAL_SERVER_ERROR "Failed to verify email";
  (* delete verification code *)
  code_deleteOne validCode;;
  (* return user *)
  mret (mkUserResult (omitPassword updatedUser)).

(** The body of the [try] block of [sendPasswordResetEmail]. *)
Definition sendPasswordResetEmail_try (e : string) : M ResetEmailResult :=
  found ← UserModel_findOne e;
  user ← appAssertSome found NOT_FOUND "User not found";
  (* check for max password reset requests (2 emails in 5min) *)
  fiveMinAgo ← fiveMinutesAgo;
  count ← VerificationCodeModel_countDocuments (_id user) PasswordReset fiveMinAgo;
  appAssert (bool_decide (count ≤ 1)%nat) TOO_MANY_REQUESTS
    "Too many requests, please try again later";;
  expiresAt ← oneHourFromNow;
  verificationCode ← VerificationCodeModel_create (_id user) PasswordReset expiresAt;
  let url := APP_ORIGIN env +:+ "/password/reset?code=" +:+ _id verificationCode
             +:+ "&exp=" +:+ pretty expiresAt in
  response ← sendMail env (mkMail e (getPasswordResetTemplate env url));
  id ← appAssertSome (truthy (data_id response)) INTERNAL_SERVER_ERROR
         (interpolate (error_name <$> mail_error response) +:+ " - "
          +:+ interpolate (error_message <$> mail_error response));
  mret (mkResetEmailResult (Some url) (Some id)).

(** The [catch] block of [sendPasswordResetEmail]. *)
Definition sendPasswordResetEmail_catch (error : AppError) : M ResetEmailResult :=
  console_log ("SendPasswordResetError: " +:+ message error);;
  mret (mkResetEmailResult None None).

Definition sendPasswordResetEmail (e : string) : M ResetEmailResult :=
  (* Catch any errors that were thrown and log them (but always return a success) *)
  try_catch (sendPasswordResetEmail_try e) sendPasswordResetEmail_catch.

Definition resetPassword (params : ResetPasswordParams) : M UserResult :=
  date ← Date_now;
  found ← VerificationCodeModel_findOne (reset_verificationCode params) PasswordReset date;
  validCode ← appAssertSome found NOT_FOUND "Invalid or expired verification code";
  let hashed := hashValue env (reset_password params) in
  updated ← UserModel_findByIdAndUpdate (code_userId (fields validCode))
              (set_password hashed) false;
  updatedUser ← appAssertSome updated INTERNAL_SERVER_ERROR "Failed to reset password";
  code_deleteOne validCode;;
  (* delete all sessions *)
  SessionModel_deleteMany (code_userId (fields validCode));;
  mret (mkUserResult (omitPassword updatedUser)).

End Service.

(** ** The public surface: one call of one of the six operations *)

Inductive Operation :=
  | CreateAccount (data : CreateAccountParams)
  | LoginUser (params : LoginParams)
  | RefreshUserAccessToken (refreshToken : string)
  | VerifyEmail (code : string)
  | SendPasswordResetEmail (e : string)
  | ResetPassword (params : ResetPasswordParams).

Inductive Returned :=
  | ReturnedAuth (r : AuthResult)
  | ReturnedRefresh (r : RefreshResult)
  | ReturnedUser (r : UserResult)
  | ReturnedResetEmail (r : ResetEmailResult).

Definition call (env : Env) (op : Operation) : M Returned :=
  match op with
  | CreateAccount data => r ← createAccount env data; mret (ReturnedAuth r)
  | LoginUser params => r ← loginUser env params; mret (ReturnedAuth r)
  | RefreshUserAccessToken tok => r ← refreshUserAccessToken env tok; mret (ReturnedRefresh r)
  | VerifyEmail code => r ← verifyEmail code; mret (ReturnedUser r)
  | SendPasswordResetEmail e => r ← sendPasswordResetEmail env e; mret (ReturnedResetEmail r)
  | ResetPassword params => r ← resetPassword env params; mret (ReturnedUser r)
  end.

(** The user object of a returned value, when it has one. *)
Definition returned_user (r : Returned) : option JsObject :=
  match r with
  | ReturnedAuth r => Some (auth_user r)
  | ReturnedUser r => Some (user r)
  | ReturnedRefresh _ | ReturnedResetEmail _ => None
  end.

(** ** Vocabulary of the statements *)

(** A session is live iff [expiresAt > now]. *)
Definition live (t : Z) (s : SessionDocument) : Prop := t < session_expiresAt s.

(** The tokens a refresh of session [sid] hands out. *)
Definition refreshed_access (env : Env) (sid : ObjectId) (s : SessionDocument) : string :=
  signToken env (mkPayload (Some (session_userId s)) sid) accessTokenSignOptions.

Definition refreshed_refresh (env : Env) (sid : ObjectId) : string :=
  signToken env (mkPayload None sid) refreshTokenSignOptions.

(** The throttle's count: stored password-reset codes of the user
    created within the last five minutes. *)
Definition recent_resets (uid : ObjectId) (w : World) : nat :=
  size (filter (recent_code uid PasswordReset (now w - FIVE_MINUTES_MS)) (codes w)).

(** The url, the mail and the delivery id of a reset request served from
    world [w]. *)
Definition reset_url (env : Env) (w : World) : string :=
  APP_ORIGIN env +:+ "/password/reset?code=" +:+ next_id w
  +:+ "&exp=" +:+ pretty (now w + ONE_HOUR_MS).

Definition reset_mail (env : Env) (e : string) (w : World) : MailParams :=
  mkMail e (getPasswordResetTemplate env (reset_url env w)).

Definition reset_delivery (env : Env) (e : string) (w : World) : option string :=
  truthy (data_id (sendMailResponse env (reset_mail env e w))).

(** The whole internal pipeline of a reset request succeeds: the user is
    found, the throttle lets the request pass, and the mailer reports a
    delivery id (creating the code cannot fail). *)
Definition pipeline_succeeds (env : Env) (e : string) (w : World) : Prop :=
  ∃ u, find_by_email e (users w) = Some u
       ∧ (recent_resets (_id u) w ≤ 1)%nat
       ∧ is_Some (reset_delivery env e w).

(** A run of consecutive reset requests for one address, each served at
    its own clock reading and against its own mailer behaviour. *)
Fixpoint serve_reset_requests (e : string) (requests : list (Env * Z)) (w : World)
    : World :=
  match requests with
  | [] => w
  | (env, t) :: rest =>
      serve_reset_requests e rest (sendPasswordResetEmail env e (set_now t w)).2
  end.

(** The code a reset request stores from world [w], and the world after
    the request has stored it and handed the mail to the mailer. *)
Definition reset_code (uid : ObjectId) (w : World) : VerificationCodeDocument :=
  mkCode uid PasswordReset (now w + ONE_HOUR_MS) (now w).

Definition reset_issued (env : Env) (e : string) (uid : ObjectId) (w : World) : World :=
  add_outbox (reset_mail env e w)
    (set_codes (insert (next_id w) (reset_code uid w)) (add_issued (next_id w) w)).

(** The error the request raises when the mailer reports no delivery id. *)
Definition reset_mail_failure (env : Env) (e : string) (w : World) : AppError :=
  let response := sendMailResponse env (reset_mail env e w) in
  mkAppError INTERNAL_SERVER_ERROR
    (interpolate (error_name <$> mail_error response) +:+ " - "
     +:+ interpolate (error_message <$> mail_error response)).

(** *** Frames and postconditions of computations *)

(** [grows w w']: the clock did not move and every stored session is
    still stored, unchanged. *)
Definition grows (w w' : World) : Prop :=
  now w' = now w ∧ sessions w ⊆ sessions w'.

Definition keeps {A} (m : M A) : Prop := ∀ w, grows w (m w).2.

(** [ensures m P]: whenever [m] returns normally, its value satisfies [P]. *)
Definition ensures {A} (m : M A) (P : A → Prop) : Prop :=
  ∀ w a w', m w = (Ok a, w') → P a.

(** The ownership invariant of the data model: every stored code refers
    to a stored user. *)
Definition owned_codes (w : World) : Prop :=
  map_Forall (λ _ c, is_Some (users w !! code_userId c)) (codes w).

Global Instance owned_codes_dec w : Decision (owned_codes w).
Proof. unfold owned_codes. apply _. Defined.

(** The store before anything was created, at clock reading [t]. *)
Definition empty_world (t : Z) : World := mkWorld ∅ ∅ ∅ t [] [] ∅.

(** A request served within the five-minute window that ends at [hi]. *)
Definition in_window (hi : Z) (request : Env * Z) : Prop :=
  hi - FIVE_MINUTES_MS < request.2 ≤ hi.

(** A run of calls, each served at its own clock reading in its own
    environment. *)
Fixpoint serve (calls : list (Env * Z * Operation)) (w : World) : World :=
  match calls with
  | [] => w
  | (env, t, op) :: rest => serve rest (call env op (set_now t w)).2
  end.

Definition is_ResetPassword (op : Operation) : Prop :=
  match op with ResetPassword _ => True | _ => False end.

(** A returned value carries no password: its user object, if it has
    one, has no [password] field. *)
Definition no_password (r : Returned) : Prop :=
  ∀ u, returned_user r = Some u → u !! "password" = None.

(** The stored password-reset codes of a user created after [since]. *)
Definition resets_since (uid : ObjectId) (since : Z) (w : World) : nat :=
  size (filter (recent_code uid PasswordReset since) (codes w)).

(** The value every failed reset request hands back: [{}]. *)
Definition empty_result : ResetEmailResult := mkResetEmailResult None None.

(** ** A concrete deployment, for the examples *)

Definition demo_signToken (p : TokenPayload) (o : SignOptions) : string :=
  match o with
  | refreshTokenSignOptions => "rt:" +:+ payload_sessionId p
  | accessTokenSignOptions =>
      "at:" +:+ interpolate (payload_userId p) +:+ ":" +:+ payload_sessionId p
  end.

Definition demo_verifyToken (tok : string) (o : SignOptions) : option TokenPayload :=
  match o with
  | refreshTokenSignOptions =>
      if decide (String.substring 0 3 tok = "rt:")
      then Some (mkPayload None (String.substring 3 (String.length tok - 3) tok))
      else None
  | accessTokenSignOptions => None
  end.

Definition demo_env : Env :=
  mkEnv "http://app" (λ s, "h:" +:+ s) (λ v h, bool_decide ("h:" +:+ v = h))
    demo_signToken demo_verifyToken (λ _, mkResponse (Some "m1") None)
    (λ u, mkTemplate "Verify" u u) (λ u, mkTemplate "Reset" u u).

(** The same deployment with a mailer that reports a failure. *)
Definition demo_env_mail_down : Env :=
  mkEnv "http://app" (λ s, "h:" +:+ s) (λ v h, bool_decide ("h:" +:+ v = h))
    demo_signToken demo_verifyToken
    (λ _, mkResponse None (Some (mkMailError "Error" "down")))
    (λ u, mkTemplate "Verify" u u) (λ u, mkTemplate "Reset" u u).

Definition alice : UserDocument := mkUser "a@x.com" "h:pw1" false 0.

(** One registered user, nothing else; the clock reads 1000. *)
Definition world_alice : World :=
  mkWorld {[ "u1" := alice ]} ∅ ∅ 1000 [] [] ∅.

(** Alice with one session that expires [left] milliseconds from now. *)
Definition world_session (left : Z) : World :=
  mkWorld {[ "u1" := alice ]} {[ "s1" := mkSession "u1" None (1000 + left) 0 ]} ∅
    1000 [] [] ∅.

(** Alice with a session and one stored code of the given type that
    expires an hour from now. *)
Definition world_code (ty : VerificationCodeType) : World :=
  mkWorld {[ "u1" := alice ]} {[ "s1" := mkSession "u1" None (1000 + ONE_DAY_MS) 0 ]}
    {[ "c1" := mkCode "u1" ty (1000 + ONE_HOUR_MS) 900 ]} 1000 [] [] ∅.

(** A password-reset code whose user is not stored. *)
Definition world_dangling_code : World :=
  mkWorld ∅ ∅ {[ "c1" := mkCode "u9" PasswordReset (1000 + ONE_HOUR_MS) 900 ]}
    1000 [] [] ∅.

(** ** Vocabulary of the further properties *)

(** No two stored users share an email. *)
Definition unique_emails (w : World) : Prop :=
  ∀ id1 id2 u1 u2,
    users w !! id1 = Some u1 → users w !! id2 = Some u2 →
    email u1 = email u2 → id1 = id2.

(** The verification mail [createAccount] sends for code [cid]. *)
Definition verify_mail (env : Env) (e : string) (cid : ObjectId) : MailParams :=
  mkMail e (getVerifyEmailTemplate env (APP_ORIGIN env +:+ "/email/verify/" +:+ cid)).

(** Which operations write to which collection. *)
Definition writes_users (op : Operation) : Prop :=
  match op with
  | CreateAccount _ | VerifyEmail _ | ResetPassword _ => True
  | _ => False
  end.

Definition writes_sessions (op : Operation) : Prop :=
  match op with
  | CreateAccount _ | LoginUser _ | RefreshUserAccessToken _ | ResetPassword _ => True
  | _ => False
  end.

Definition writes_codes (op : Operation) : Prop :=
  match op with
  | CreateAccount _ | VerifyEmail _ | SendPasswordResetEmail _ | ResetPassword _ => True
  | _ => False
  end.

(** The operation consumes the code stored under [id]. *)
Definition consumes (id : ObjectId) (op : Operation) : Prop :=
  match op with
  | VerifyEmail code => code = id
  | ResetPassword params => reset_verificationCode params = id
  | _ => False
  end.

(** The signer's round trip on the refresh token of session [sid]. *)
Definition refresh_token_verifies (env : Env) (sid : ObjectId) : Prop :=
  ∃ p, verifyToken env (signToken env (mkPayload None sid) refreshTokenSignOptions)
         refreshTokenSignOptions = Some p
       ∧ payload_sessionId p = sid.

(** The demo deployment with a mailer that answers with an empty
    delivery id. *)
Definition demo_env_empty_id : Env :=
  mkEnv "http://app" (λ s, "h:" +:+ s) (λ v h, bool_decide ("h:" +:+ v = h))
    demo_signToken demo_verifyToken (λ _, mkResponse (Some "") None)
    (λ u, mkTemplate "Verify" u u) (λ u, mkTemplate "Reset" u u).

(** Every stored session belongs to a stored user. *)
Definition owned_sessions (w : World) : Prop :=
  map_Forall (λ _ s, is_Some (users w !! session_userId s)) (sessions w).

(** * Verification *)

(** ** Running the monad *)

Ltac run_monad :=
  unfold mbind, M_bind, mret, M_ret, appAssert, appAssertSome, throw, get, modify,
    Date_now, thirtyDaysFromNow, oneHourFromNow, oneYearFromNow, fiveMinutesAgo,
    console_log, console_error; simpl.

(** ** Fresh ids *)

Lemma next_id_fresh w :
  next_id w ∉ issued w ∪ dom (users w) ∪ dom (sessions w) ∪ dom (codes w).
Proof. unfold next_id. apply is_fresh. Qed.

Lemma next_id_users w : users w !! next_id w = None.
Proof. apply not_elem_of_dom. pose proof (next_id_fresh w). set_solver. Qed.

Lemma next_id_sessions w : sessions w !! next_id w = None.
Proof. apply not_elem_of_dom. pose proof (next_id_fresh w). set_solver. Qed.

Lemma next_id_codes w : codes w !! next_id w = None.
Proof. apply not_elem_of_dom. pose proof (next_id_fresh w). set_solver. Qed.

(** ** The operations, path by path *)

(** Every path through [loginUser]: the request's password takes no part
    in it. *)
Lemma loginUser_cases env params w :
  loginUser env params w =
  match find_by_email (login_email params) (users w) with
  | None => (Err (mkAppError UNAUTHORIZED "Invalid email or password"), w)
  | Some user =>
      let sid := next_id w in
      (Ok (mkAuthResult (omitPassword user)
             (signToken env (mkPayload (Some (_id user)) sid) accessTokenSignOptions)
             (signToken env (mkPayload None sid) refreshTokenSignOptions)),
       set_sessions
         (insert sid (mkSession (_id user) (login_userAgent params)
                        (now w + THIRTY_DAYS_MS) (now w)))
         (add_issued sid w))
  end.
Proof.
  unfold loginUser, UserModel_findOne, SessionModel_create. run_monad.
  by destruct (find_by_email (login_email params) (users w)).
Qed.

(** Every path through [refreshUserAccessToken], read off the code. *)
Lemma refreshUserAccessToken_cases env tok w :
  refreshUserAccessToken env tok w =
  match verifyToken env tok refreshTokenSignOptions with
  | None => (Err (mkAppError UNAUTHORIZED "Invalid refresh token"), w)
  | Some p =>
      let sid := payload_sessionId p in
      match sessions w !! sid with
      | None => (Err (mkAppError UNAUTHORIZED "Session expired"), w)
      | Some s =>
          if decide (now w < session_expiresAt s) then
            if decide (session_expiresAt s - now w ≤ ONE_DAY_MS) then
              (Ok (mkRefreshResult (refreshed_access env sid s)
                     (Some (refreshed_refresh env sid))),
               set_sessions (insert sid (set_expiresAt (now w + THIRTY_DAYS_MS) s)) w)
            else (Ok (mkRefreshResult (refreshed_access env sid s) None), w)
          else (Err (mkAppError UNAUTHORIZED "Session expired"), w)
      end
  end.
Proof.
  unfold refreshUserAccessToken, SessionModel_findById, session_save.
  destruct (verifyToken env tok refreshTokenSignOptions) as [p|]; [|done].
  run_monad. destruct (sessions w !! payload_sessionId p) as [s|]; [|done].
  simpl. destruct (decide (now w < session_expiresAt s)); [|done].
  simpl. destruct (decide (session_expiresAt s - now w ≤ ONE_DAY_MS)).
  - by rewrite bool_decide_eq_true_2.
  - by rewrite bool_decide_eq_false_2.
Qed.

Lemma verifyEmail_cases id w :
  verifyEmail id w =
  match codes w !! id with
  | None => (Err (mkAppError NOT_FOUND "Invalid or expired verification code"), w)
  | Some c =>
      if decide (valid_code EmailVerification (now w) c) then
        let uid := code_userId c in
        match users w !! uid with
        | None => (Err (mkAppError INTERNAL_SERVER_ERROR "Failed to verify email"), w)
        | Some u =>
            (Ok (mkUserResult (omitPassword (mkDoc uid (set_verified u)))),
             set_codes (delete id) (set_users (insert uid (set_verified u)) w))
        end
      else (Err (mkAppError NOT_FOUND "Invalid or expired verification code"), w)
  end.
Proof.
  unfold verifyEmail, VerificationCodeModel_findOne, UserModel_findByIdAndUpdate,
    code_deleteOne.
  run_monad. destruct (codes w !! id) as [c|]; [|done].
  destruct (decide (valid_code EmailVerification (now w) c)); [|done].
  simpl. by destruct (users w !! code_userId c).
Qed.

Lemma sendPasswordResetEmail_try_cases env e w :
  sendPasswordResetEmail_try env e w =
  match find_by_email e (users w) with
  | None => (Err (mkAppError NOT_FOUND "User not found"), w)
  | Some u =>
      if decide (recent_resets (_id u) w ≤ 1)%nat then
        match reset_delivery env e w with
        | Some id =>
            (Ok (mkResetEmailResult (Some (reset_url env w)) (Some id)),
             reset_issued env e (_id u) w)
        | None => (Err (reset_mail_failure env e w), reset_issued env e (_id u) w)
        end
      else
        (Err (mkAppError TOO_MANY_REQUESTS "Too many requests, please try again later"),
         w)
  end.
Proof.
  unfold sendPasswordResetEmail_try, UserModel_findOne,
    VerificationCodeModel_countDocuments, VerificationCodeModel_create, sendMail.
  run_monad. destruct (find_by_email e (users w)) as [u|]; [|done].
  simpl. fold (recent_resets (_id u) w).
  destruct (decide (recent_resets (_id u) w ≤ 1)%nat).
  - rewrite bool_decide_eq_true_2 by done. simpl.
    unfold reset_delivery, reset_mail_failure, reset_issued, reset_mail, reset_url,
      reset_code.
    by destruct (truthy _).
  - by rewrite bool_decide_eq_false_2.
Qed.

Lemma sendPasswordResetEmail_cases env e w :
  sendPasswordResetEmail env e w =
  match sendPasswordResetEmail_try env e w with
  | (Ok r, w') => (Ok r, w')
  | (Err error, w') =>
      (Ok empty_result, add_console ("SendPasswordResetError: " +:+ message error) w')
  end.
Proof.
  unfold sendPasswordResetEmail, try_catch.
  by destruct (sendPasswordResetEmail_try env e w) as [[r | error] w'].
Qed.

Lemma resetPassword_cases env params w :
  resetPassword env params w =
  let id := reset_verificationCode params in
  match codes w !! id with
  | None => (Err (mkAppError NOT_FOUND "Invalid or expired verification code"), w)
  | Some c =>
      if decide (valid_code PasswordReset (now w) c) then
        let uid := code_userId c in
        match users w !! uid with
        | None => (Err (mkAppError INTERNAL_SERVER_ERROR "Failed to reset password"), w)
        | Some u =>
            (Ok (mkUserResult (omitPassword (mkDoc uid u))),
             set_sessions (filter (λ kv, session_userId kv.2 ≠ uid))
               (set_codes (delete id)
                  (set_users
                     (insert uid (set_password (hashValue env (reset_password params)) u))
                     w)))
        end
      else (Err (mkAppError NOT_FOUND "Invalid or expired verification code"), w)
  end.
Proof.
  unfold resetPassword, VerificationCodeModel_findOne, UserModel_findByIdAndUpdate,
    code_deleteOne, SessionModel_deleteMany.
  run_monad. destruct (codes w !! reset_verificationCode params) as [c|]; [|done].
  destruct (decide (valid_code PasswordReset (now w) c)); [|done].
  simpl. by destruct (users w !! code_userId c).
Qed.

Lemma call_world env op w :
  (call env op w).2 =
  match op with
  | CreateAccount data => (createAccount env data w).2
  | LoginUser params => (loginUser env params w).2
  | RefreshUserAccessToken tok => (refreshUserAccessToken env tok w).2
  | VerifyEmail code => (verifyEmail code w).2
  | SendPasswordResetEmail e => (sendPasswordResetEmail env e w).2
  | ResetPassword params => (resetPassword env params w).2
  end.
Proof.
  destruct op; unfold call, mbind, M_bind, mret, M_ret;
    match goal with |- context [match ?m with _ => _ end] => by destruct m as [[?|?] ?] end.
Qed.

(** ** Frames: what a call leaves alone *)

Global Instance grows_preorder : PreOrder grows.
Proof.
  split.
  - intros w. by split.
  - intros w1 w2 w3 [Hn1 Hs1] [Hn2 Hs2]. split; [congruence | by etrans].
Qed.

Lemma keeps_bind {A B} (m : M A) (f : A → M B) :
  keeps m → (∀ a, keeps (f a)) → keeps (m ≫= f).
Proof.
  intros Hm Hf w. unfold mbind, M_bind. specialize (Hm w).
  destruct (m w) as [[a | e] w1]; simpl in *; [|done].
  etrans; [exact Hm | apply Hf].
Qed.

Lemma keeps_ret {A} (a : A) : keeps (mret a).
Proof. intros w. reflexivity. Qed.

Lemma keeps_get {A} (f : World → A) : keeps (get f).
Proof. intros w. reflexivity. Qed.

Lemma keeps_throw {A} e : keeps (@throw A e).
Proof. intros w. reflexivity. Qed.

Lemma keeps_appAssert c code msg : keeps (appAssert c code msg).
Proof. destruct c; [apply keeps_ret | apply keeps_throw]. Qed.

Lemma keeps_appAssertSome {A} (o : option A) code msg :
  keeps (appAssertSome o code msg).
Proof. destruct o; [apply keeps_ret | apply keeps_throw]. Qed.

Lemma keeps_try_catch {A} (body : M A) handler :
  keeps body → (∀ e, keeps (handler e)) → keeps (try_catch body handler).
Proof.
  intros Hb Hh w. unfold try_catch. specialize (Hb w).
  destruct (body w) as [[a | e] w1]; simpl in *; [done|].
  etrans; [exact Hb | apply Hh].
Qed.

Lemma keeps_SessionModel_create uid ua : keeps (SessionModel_create uid ua).
Proof.
  intros w. split; [done|]. simpl. apply insert_subseteq, next_id_sessions.
Qed.

Lemma keeps_UserModel_create env e pw : keeps (UserModel_create env e pw).
Proof. intros w. by split. Qed.

Lemma keeps_UserModel_findByIdAndUpdate id f b :
  keeps (UserModel_findByIdAndUpdate id f b).
Proof. intros w. unfold UserModel_findByIdAndUpdate. by destruct (users w !! id). Qed.

Lemma keeps_VerificationCodeModel_create uid ty exp :
  keeps (VerificationCodeModel_create uid ty exp).
Proof. intros w. by split. Qed.

Lemma keeps_sendMail env params : keeps (sendMail env params).
Proof. intros w. by split. Qed.

Lemma keeps_console_log line : keeps (console_log line).
Proof. intros w. by split. Qed.

Lemma keeps_code_deleteOne c : keeps (code_deleteOne c).
Proof. intros w. by split. Qed.

Ltac keeps_step :=
  first
    [ apply keeps_ret | apply keeps_get | apply keeps_throw | apply keeps_appAssert
    | apply keeps_appAssertSome | apply keeps_SessionModel_create
    | apply keeps_UserModel_create | apply keeps_UserModel_findByIdAndUpdate
    | apply keeps_VerificationCodeModel_create | apply keeps_sendMail
    | apply keeps_console_log | apply keeps_code_deleteOne
    | apply keeps_bind; [|intros ?] ].

Lemma createAccount_keeps env data : keeps (createAccount env data).
Proof.
  unfold createAccount, UserModel_exists, oneYearFromNow, Date_now, console_error.
  repeat keeps_step. destruct (mail_error _); repeat keeps_step.
Qed.

Lemma loginUser_keeps env params : keeps (loginUser env params).
Proof. unfold loginUser, UserModel_findOne. repeat keeps_step. Qed.

Lemma verifyEmail_keeps code : keeps (verifyEmail code).
Proof.
  unfold verifyEmail, Date_now, VerificationCodeModel_findOne. repeat keeps_step.
Qed.

Lemma sendPasswordResetEmail_keeps env e : keeps (sendPasswordResetEmail env e).
Proof.
  unfold sendPasswordResetEmail, sendPasswordResetEmail_try, UserModel_findOne,
    fiveMinutesAgo, oneHourFromNow, Date_now, VerificationCodeModel_countDocuments.
  apply keeps_try_catch; [|intros ?; unfold sendPasswordResetEmail_catch];
    repeat keeps_step.
Qed.

Lemma grows_expired w w' sid (s : SessionDocument) :
  grows w w' → sessions w !! sid = Some s →
  now w' = now w ∧ sessions w' !! sid = Some s.
Proof. intros [Hn Hsub] Hs. split; [done|]. by eapply lookup_weaken. Qed.

(** One call against an expired session: the clock is not moved, and the
    session is still stored as it was, or it is gone and the call was a
    password reset. *)
Lemma call_expired_session env op w sid s :
  sessions w !! sid = Some s →
  session_expiresAt s ≤ now w →
  now (call env op w).2 = now w
  ∧ (sessions (call env op w).2 !! sid = Some s
     ∨ (sessions (call env op w).2 !! sid = None ∧ is_ResetPassword op)).
Proof.
  intros Hs Hexp. rewrite call_world. destruct op as [data|params|tok|code|e|params].
  - destruct (grows_expired _ _ _ _ (createAccount_keeps env data w) Hs); auto.
  - destruct (grows_expired _ _ _ _ (loginUser_keeps env params w) Hs); auto.
  - rewrite refreshUserAccessToken_cases.
    destruct (verifyToken env tok refreshTokenSignOptions) as [p|]; simpl; [|by auto].
    destruct (sessions w !! payload_sessionId p) as [s0|] eqn:Hs0; [|by auto].
    destruct (decide (now w < session_expiresAt s0)) as [Hlive|]; [|by auto].
    destruct (decide (session_expiresAt s0 - now w ≤ ONE_DAY_MS)); [|by auto].
    simpl. split; [done|]. left.
    rewrite lookup_insert_ne; [done|]. intros <-. rewrite Hs in Hs0.
    injection Hs0 as <-. lia.
  - destruct (grows_expired _ _ _ _ (verifyEmail_keeps code w) Hs); auto.
  - destruct (grows_expired _ _ _ _ (sendPasswordResetEmail_keeps env e w) Hs); auto.
  - rewrite resetPassword_cases. simpl.
    destruct (codes w !! reset_verificationCode params) as [c|]; [|by auto].
    destruct (decide (valid_code PasswordReset (now w) c)); [|by auto].
    simpl. destruct (users w !! code_userId c); [|by auto].
    simpl. split; [done|].
    destruct (decide (session_userId s = code_userId c)) as [Heq|Hne].
    + right. split; [|done]. apply map_lookup_filter_None. right.
      intros s' Hs'. rewrite Hs in Hs'. injection Hs' as <-. simpl. by intros ?.
    + left. by apply map_lookup_filter_Some.
Qed.

(** ** The ownership invariant *)

Lemma find_by_email_Some e us d :
  find_by_email e us = Some d → us !! _id d = Some (fields d) ∧ email (fields d) = e.
Proof.
  unfold find_by_email. destruct (list_find _ _) as [[i [k u]]|] eqn:Hfind; [|done].
  intros [= <-]. simpl. apply list_find_Some in Hfind as (Hi & He & _).
  split; [|done]. apply elem_of_map_to_list. eapply list_elem_of_lookup_2, Hi.
Qed.

Lemma owned_codes_users w f :
  (∀ k, is_Some (users w !! k) → is_Some (f (users w) !! k)) →
  owned_codes w → owned_codes (set_users f w).
Proof. intros Hf Hw id c Hc. apply Hf. by eapply Hw. Qed.

Lemma owned_codes_insert w id c :
  is_Some (users w !! code_userId c) →
  owned_codes w → owned_codes (set_codes (insert id c) w).
Proof. intros Hc Hw. by apply map_Forall_insert_2. Qed.

Lemma owned_codes_delete w id :
  owned_codes w → owned_codes (set_codes (delete id) w).
Proof. intros Hw. by apply map_Forall_delete. Qed.

Lemma createAccount_owned_codes env data w :
  owned_codes w → owned_codes (createAccount env data w).2.
Proof.
  intros Hw. unfold createAccount, UserModel_exists, UserModel_create,
    VerificationCodeModel_create, sendMail, SessionModel_create.
  run_monad. destruct (find_by_email (create_email data) (users w)); simpl; [done|].
  assert (∀ line, owned_codes
            (set_codes
               (insert line (mkCode (next_id w) EmailVerification (now w + ONE_YEAR_MS) (now w)))
               (set_users
                  (insert (next_id w)
                     (mkUser (create_email data) (hashValue env (create_password data))
                        false (now w)))
                  w))) as Hcreated.
  { intros line. apply owned_codes_insert; simpl.
    - rewrite lookup_insert_eq. by eexists.
    - apply owned_codes_users; [|done]. intros k Hk.
      apply lookup_insert_is_Some'. by right. }
  destruct (mail_error _); simpl; apply Hcreated.
Qed.

Lemma call_owned_codes env op w : owned_codes w → owned_codes (call env op w).2.
Proof.
  intros Hw. rewrite call_world. destruct op as [data|params|tok|code|e|params].
  - by apply createAccount_owned_codes.
  - rewrite loginUser_cases. by destruct (find_by_email _ _).
  - rewrite refreshUserAccessToken_cases.
    destruct (verifyToken _ _ _) as [p|]; simpl; [|done].
    destruct (sessions w !! _) as [s|]; [|done].
    by repeat destruct (decide _).
  - rewrite verifyEmail_cases. destruct (codes w !! code) as [c|]; [|done].
    destruct (decide _); [|done]. simpl.
    destruct (users w !! code_userId c) as [u|] eqn:Hu; [|done]. simpl.
    apply owned_codes_delete, owned_codes_users; [|done].
    intros k Hk. apply lookup_insert_is_Some'. by right.
  - rewrite sendPasswordResetEmail_cases, sendPasswordResetEmail_try_cases.
    destruct (find_by_email e (users w)) as [u|] eqn:Hu; [|done].
    destruct (decide _); [|done].
    apply find_by_email_Some in Hu as [Hu _].
    destruct (reset_delivery env e w); simpl; apply owned_codes_insert; by eauto.
  - rewrite resetPassword_cases. simpl.
    destruct (codes w !! _) as [c|]; [|done].
    destruct (decide _); [|done]. simpl.
    destruct (users w !! code_userId c) as [u|] eqn:Hu; [|done]. simpl.
    apply owned_codes_delete, owned_codes_users; [|done].
    intros k Hk. apply lookup_insert_is_Some'. by right.
Qed.

Lemma serve_owned_codes calls w : owned_codes w → owned_codes (serve calls w).
Proof.
  revert w. induction calls as [|[[env t] op] rest IH]; intros w Hw; [done|].
  simpl. apply IH. by apply call_owned_codes.
Qed.

Lemma empty_world_owned_codes t : owned_codes (empty_world t).
Proof. apply map_Forall_empty. Qed.

(** ** Returned user objects *)

(** The object handed back does not depend on the stored hash: the
    document as it was before [{ password }] was written and the
    document after it give the same user object. *)
Lemma omitPassword_set_password id hashed u :
  omitPassword (mkDoc id (set_password hashed u)) = omitPassword (mkDoc id u).
Proof. unfold omitPassword, toObject. by rewrite !delete_insert_eq. Qed.

Lemma omitPassword_no_password u : omitPassword u !! "password" = None.
Proof. apply lookup_delete_eq. Qed.

Lemma ensures_bind {A B} (m : M A) (f : A → M B) (P : B → Prop) :
  (∀ a, ensures (f a) P) → ensures (m ≫= f) P.
Proof.
  intros Hf w b w'. unfold mbind, M_bind.
  destruct (m w) as [[a | e] w1]; [apply Hf | done].
Qed.

Lemma ensures_ret {A} (a : A) (P : A → Prop) : P a → ensures (mret a) P.
Proof. intros Ha w a' w' [= <- _]. exact Ha. Qed.

Lemma ensures_then {A B} (m : M A) (f : A → M B) (Q : A → Prop) (P : B → Prop) :
  ensures m Q → (∀ a, Q a → ensures (f a) P) → ensures (m ≫= f) P.
Proof.
  intros Hm Hf w b w'. unfold mbind, M_bind. specialize (Hm w).
  destruct (m w) as [[a | e] w1]; [|done]. apply Hf. by eapply Hm.
Qed.

Ltac ensures_user :=
  repeat (apply ensures_bind; intros ?); apply ensures_ret;
  apply omitPassword_no_password.

Lemma createAccount_ensures env data :
  ensures (createAccount env data) (λ r, auth_user r !! "password" = None).
Proof. unfold createAccount. ensures_user. Qed.

Lemma loginUser_ensures env params :
  ensures (loginUser env params) (λ r, auth_user r !! "password" = None).
Proof. unfold loginUser. ensures_user. Qed.

Lemma verifyEmail_ensures code :
  ensures (verifyEmail code) (λ r, user r !! "password" = None).
Proof. unfold verifyEmail. ensures_user. Qed.

Lemma resetPassword_ensures env params :
  ensures (resetPassword env params) (λ r, user r !! "password" = None).
Proof. unfold resetPassword. ensures_user. Qed.

(** ** The reset throttle *)

(** What one request does to the store. *)
Lemma sendPasswordResetEmail_codes env e w :
  let w' := (sendPasswordResetEmail env e w).2 in
  users w' = users w ∧ now w' = now w
  ∧ (codes w' = codes w
     ∨ ∃ u, find_by_email e (users w) = Some u
            ∧ (recent_resets (_id u) w ≤ 1)%nat
            ∧ codes w' = <[next_id w := reset_code (_id u) w]> (codes w)).
Proof.
  rewrite sendPasswordResetEmail_cases, sendPasswordResetEmail_try_cases.
  destruct (find_by_email e (users w)) as [u|]; [|by auto].
  destruct (decide (recent_resets (_id u) w ≤ 1)%nat); [|by auto].
  destruct (reset_delivery env e w); simpl; split_and!; try done; right; by exists u.
Qed.

Lemma size_insert_fresh_code w c :
  size (<[next_id w := c]> (codes w)) = S (size (codes w)).
Proof. apply map_size_insert_None, next_id_codes. Qed.

Lemma resets_since_insert uid since w c :
  recent_code uid PasswordReset since (next_id w, c) →
  size (filter (recent_code uid PasswordReset since)
          (<[next_id w := c]> (codes w)))
  = S (resets_since uid since w).
Proof.
  intros Hc. rewrite map_filter_insert_True by done.
  apply map_size_insert_None, map_lookup_filter_None. left. apply next_id_codes.
Qed.

Lemma resets_since_mono uid since since' w :
  since ≤ since' → (resets_since uid since' w ≤ resets_since uid since w)%nat.
Proof.
  intros Hle. apply map_subseteq_size, map_filter_subseteq_ext.
  intros i c _ (Hu & Hty & Hcreated). split_and!; [done | done | lia].
Qed.

(** One request never lowers [size codes - min (recent resets) 2]. *)
Lemma reset_request_step env e hi w u :
  find_by_email e (users w) = Some u →
  now w ≤ hi →
  hi - FIVE_MINUTES_MS < now w →
  let w' := (sendPasswordResetEmail env e w).2 in
  let lo := hi - FIVE_MINUTES_MS in
  (size (codes w') + Nat.min (resets_since (_id u) lo w) 2
   ≤ size (codes w) + Nat.min (resets_since (_id u) lo w') 2)%nat.
Proof.
  intros Hu Hhi Hlo w' lo.
  destruct (sendPasswordResetEmail_codes env e w) as (_ & _ & Hcodes).
  fold w' in Hcodes. unfold resets_since.
  destruct Hcodes as [-> | (u' & Hu' & Hcount & ->)]; [done|].
  rewrite Hu in Hu'. injection Hu' as <-.
  pose proof (resets_since_mono (_id u) (now w - FIVE_MINUTES_MS) lo w) as Hmono.
  unfold recent_resets, resets_since in *.
  rewrite resets_since_insert, size_insert_fresh_code.
  - unfold resets_since, lo in *. lia.
  - unfold recent_code, lo. simpl. split_and!; [done | done | lia].
Qed.

Lemma serve_reset_requests_bound e requests hi w u :
  find_by_email e (users w) = Some u →
  Forall (in_window hi) requests →
  (size (codes (serve_reset_requests e requests w)) ≤ size (codes w) + 2)%nat.
Proof.
  intros Hu Hreq.
  enough ((size (codes (serve_reset_requests e requests w))
           + Nat.min (resets_since (_id u) (hi - FIVE_MINUTES_MS) w) 2
           ≤ size (codes w) + 2)%nat) by lia.
  revert w Hu. induction Hreq as [|[env t] rest [Hlo Hhi] _ IH]; intros w Hu.
  { simpl. lia. }
  simpl in Hlo, Hhi.
  pose proof (reset_request_step env e hi (set_now t w) u Hu Hhi Hlo) as Hstep.
  destruct (sendPasswordResetEmail_codes env e (set_now t w)) as (Husers & _ & _).
  cbn [serve_reset_requests].
  set (w1 := (sendPasswordResetEmail env e (set_now t w)).2) in *.
  assert (Hu1 : find_by_email e (users w1) = Some u) by by rewrite Husers.
  specialize (IH w1 Hu1).
  cbv zeta in Hstep.
  change (codes (set_now t w)) with (codes w) in Hstep.
  change (resets_since (_id u) (hi - FIVE_MINUTES_MS) (set_now t w))
    with (resets_since (_id u) (hi - FIVE_MINUTES_MS) w) in Hstep.
  lia.
Qed.

(** ** Login *)

(** C1, as the code behaves: the outcome of [loginUser] is the same for
    every password.  With Alice stored under the hash of "pw1", a login
    with her email and the password "wrong" does not compare equal to
    the stored hash and is accepted all the same: it returns tokens and
    stores a new session, where the claim has Unauthorized "Invalid
    email or password" and no session.  An unknown email does fail that
    way. *)
Theorem loginUser_wrong_password_accepted :
  (∀ env e pw pw' ua w,
     loginUser env (mkLoginParams e pw ua) w = loginUser env (mkLoginParams e pw' ua) w)
  ∧ let params := mkLoginParams "a@x.com" "wrong" None in
    find_by_email "a@x.com" (users world_alice) = Some (mkDoc "u1" alice)
    ∧ comparePassword demo_env (mkDoc "u1" alice) "wrong" = false
    ∧ (loginUser demo_env params world_alice).1
      = Ok (mkAuthResult (omitPassword (mkDoc "u1" alice)) "at:u1:0" "rt:0")
    ∧ sessions (loginUser demo_env params world_alice).2
      = {[ "0" := mkSession "u1" None (1000 + THIRTY_DAYS_MS) 1000 ]}
    ∧ loginUser demo_env (mkLoginParams "nobody@x.com" "wrong" None) world_alice
      = (Err (mkAppError UNAUTHORIZED "Invalid email or password"), world_alice).
Proof.
  split.
  - intros env e pw pw' ua w. by rewrite !loginUser_cases.
  - vm_compute. done.
Qed.

(** ** Password-reset completion *)

(** C2: in a store where every code refers to a stored user, as in every
    store the service itself has built, a stored password-reset code
    that has not expired lets [resetPassword] succeed: the referenced
    user's password becomes the hash of the new password, the code is
    deleted, every session of that user is deleted (the others stay),
    and the call returns the updated user without its password field. *)
Theorem resetPassword_succeeds env id pw c w :
  owned_codes w →
  codes w !! id = Some c →
  code_type c = PasswordReset →
  now w < code_expiresAt c →
  let uid := code_userId c in
  ∃ u w',
    users w !! uid = Some u
    ∧ resetPassword env (mkResetPasswordParams pw id) w
      = (Ok (mkUserResult (omitPassword (mkDoc uid (set_password (hashValue env pw) u)))),
         w')
    ∧ users w' = <[uid := set_password (hashValue env pw) u]> (users w)
    ∧ codes w' = delete id (codes w)
    ∧ sessions w' = filter (λ kv, session_userId kv.2 ≠ uid) (sessions w)
    ∧ (∀ sid s, sessions w' !! sid = Some s → session_userId s ≠ uid)
    ∧ omitPassword (mkDoc uid (set_password (hashValue env pw) u)) !! "password" = None.
Proof.
  intros Hw Hc Hty Hexp uid. subst uid.
  destruct (Hw id c Hc) as [u Hu]. exists u.
  rewrite resetPassword_cases. simpl. rewrite Hc.
  rewrite decide_True by done. simpl. rewrite Hu.
  eexists. split; [done|]. split; [by rewrite omitPassword_set_password|].
  simpl. split_and!; [done | done | done | | apply omitPassword_no_password].
  intros sid s Hs. by apply map_lookup_filter_Some in Hs as [_ ?].
Qed.

Lemma resetPassword_succeeds_witness :
  ∃ w', resetPassword demo_env (mkResetPasswordParams "pw2" "c1")
          (world_code PasswordReset)
        = (Ok (mkUserResult (omitPassword (mkDoc "u1" (mkUser "a@x.com" "h:pw2" false 0)))),
           w')
        ∧ users w' !! "u1" = Some (mkUser "a@x.com" "h:pw2" false 0)
        ∧ codes w' !! "c1" = None
        ∧ sessions w' !! "s1" = None.
Proof.
  destruct (resetPassword_succeeds demo_env "c1" "pw2"
              (mkCode "u1" PasswordReset (1000 + ONE_HOUR_MS) 900)
              (world_code PasswordReset))
    as (u & w' & Hu & Hrun & Husers & Hcodes & Hsessions & _);
    [apply (@bool_decide_unpack _ (owned_codes_dec _)); vm_compute; exact I
    | reflexivity | reflexivity | reflexivity |].
  assert (u = alice) as -> by (vm_compute in Hu; injection Hu as <-; reflexivity).
  exists w'. split_and!.
  - exact Hrun.
  - rewrite Husers. reflexivity.
  - rewrite Hcodes. reflexivity.
  - rewrite Hsessions. reflexivity.
Defined.

(** Outside the invariant: a valid code whose user is not stored makes
    [resetPassword] fail at its second assertion, and nothing is
    written. *)
Lemma resetPassword_missing_user env id pw c w :
  codes w !! id = Some c →
  valid_code PasswordReset (now w) c →
  users w !! code_userId c = None →
  resetPassword env (mkResetPasswordParams pw id) w
  = (Err (mkAppError INTERNAL_SERVER_ERROR "Failed to reset password"), w).
Proof.
  intros Hc Hv Hu. rewrite resetPassword_cases. simpl. rewrite Hc.
  rewrite decide_True by done. simpl. by rewrite Hu.
Qed.

Example resetPassword_dangling_code :
  resetPassword demo_env (mkResetPasswordParams "pw2" "c1") world_dangling_code
  = (Err (mkAppError INTERNAL_SERVER_ERROR "Failed to reset password"),
     world_dangling_code).
Proof. by apply resetPassword_missing_user with (c := mkCode "u9" PasswordReset (1000 + ONE_HOUR_MS) 900). Qed.

(** ** Token refresh *)

(** C3: a valid refresh token whose session is live gets a fresh access
    token bound to the session's user and id; when at most 24 hours of
    the session remain, its [expiresAt] is set to 30 days from now, the
    change is stored, and a new refresh token for the same session id
    comes back; when more than 24 hours remain, the world is left as it
    was and no new refresh token is returned. *)
Theorem refresh_sliding_window env tok p s w :
  verifyToken env tok refreshTokenSignOptions = Some p →
  sessions w !! payload_sessionId p = Some s →
  now w < session_expiresAt s →
  let sid := payload_sessionId p in
  let access :=
    signToken env (mkPayload (Some (session_userId s)) sid) accessTokenSignOptions in
  (session_expiresAt s - now w ≤ ONE_DAY_MS →
   refreshUserAccessToken env tok w
   = (Ok (mkRefreshResult access
            (Some (signToken env (mkPayload None sid) refreshTokenSignOptions))),
      set_sessions (insert sid (set_expiresAt (now w + THIRTY_DAYS_MS) s)) w))
  ∧ (ONE_DAY_MS < session_expiresAt s - now w →
     refreshUserAccessToken env tok w = (Ok (mkRefreshResult access None), w)).
Proof.
  intros Hv Hs Hlive sid access.
  rewrite refreshUserAccessToken_cases, Hv. simpl. rewrite Hs.
  rewrite decide_True by done.
  split; intros Hleft.
  - by rewrite decide_True.
  - rewrite decide_False by lia. done.
Qed.

Lemma refresh_sliding_window_witness :
  refreshUserAccessToken demo_env "rt:s1" (world_session (23 * ONE_HOUR_MS))
  = (Ok (mkRefreshResult "at:u1:s1" (Some "rt:s1")),
     set_sessions
       (insert "s1" (mkSession "u1" None (1000 + THIRTY_DAYS_MS) 0))
       (world_session (23 * ONE_HOUR_MS)))
  ∧ refreshUserAccessToken demo_env "rt:s1" (world_session (48 * ONE_HOUR_MS))
    = (Ok (mkRefreshResult "at:u1:s1" None), world_session (48 * ONE_HOUR_MS)).
Proof.
  split.
  - apply (refresh_sliding_window demo_env "rt:s1" (mkPayload None "s1")
             (mkSession "u1" None (1000 + 23 * ONE_HOUR_MS) 0)
             (world_session (23 * ONE_HOUR_MS)));
      [reflexivity | reflexivity | reflexivity | vm_compute; discriminate].
  - apply (refresh_sliding_window demo_env "rt:s1" (mkPayload None "s1")
             (mkSession "u1" None (1000 + 48 * ONE_HOUR_MS) 0)
             (world_session (48 * ONE_HOUR_MS)));
      [reflexivity | reflexivity | reflexivity | reflexivity].
Defined.

(** C4: a refresh token that verifies but whose session id is not
    stored, or is stored with [expiresAt <= now], is refused with
    Unauthorized "Session expired"; nothing is written. *)
Theorem refresh_session_expired env tok p w :
  verifyToken env tok refreshTokenSignOptions = Some p →
  (sessions w !! payload_sessionId p = None
   ∨ ∃ s, sessions w !! payload_sessionId p = Some s ∧ session_expiresAt s ≤ now w) →
  refreshUserAccessToken env tok w
  = (Err (mkAppError UNAUTHORIZED "Session expired"), w).
Proof.
  intros Hv Hs. rewrite refreshUserAccessToken_cases, Hv. simpl.
  destruct Hs as [-> | (s & -> & Hexp)]; [done|].
  by rewrite decide_False by lia.
Qed.

Lemma refresh_session_expired_witness :
  refreshUserAccessToken demo_env "rt:s1" world_alice
  = (Err (mkAppError UNAUTHORIZED "Session expired"), world_alice)
  ∧ refreshUserAccessToken demo_env "rt:s1" (world_session 0)
    = (Err (mkAppError UNAUTHORIZED "Session expired"), world_session 0).
Proof.
  split.
  - apply (refresh_session_expired demo_env "rt:s1" (mkPayload None "s1") world_alice);
      [reflexivity | left; reflexivity].
  - apply (refresh_session_expired demo_env "rt:s1" (mkPayload None "s1")
             (world_session 0)); [reflexivity|].
    right. exists (mkSession "u1" None (1000 + 0) 0). split; [reflexivity|].
    vm_compute. discriminate.
Defined.

(** ** Email verification *)

(** C5: when [verifyEmail] succeeds on an id, the id named a stored
    email-verification code, the call deleted it, and a second call with
    the same id, whatever the clock then reads, fails with NotFound
    "Invalid or expired verification code". *)
Theorem verifyEmail_single_use id w r w' :
  verifyEmail id w = (Ok r, w') →
  (∃ c, codes w !! id = Some c ∧ code_type c = EmailVerification)
  ∧ codes w' = delete id (codes w)
  ∧ codes w' !! id = None
  ∧ ∀ t, verifyEmail id (set_now t w')
         = (Err (mkAppError NOT_FOUND "Invalid or expired verification code"),
            set_now t w').
Proof.
  rewrite verifyEmail_cases.
  destruct (codes w !! id) as [c|] eqn:Hc; [|done].
  destruct (decide (valid_code EmailVerification (now w) c)) as [[Hty _]|]; [|done].
  simpl. destruct (users w !! code_userId c) as [u|]; [|done].
  intros [= <- <-]. simpl. split_and!.
  - by exists c.
  - done.
  - apply lookup_delete_eq.
  - intros t. rewrite verifyEmail_cases. simpl. by rewrite lookup_delete_eq.
Qed.

Lemma verifyEmail_single_use_witness :
  let first := verifyEmail "c1" (world_code EmailVerification) in
  first.1 = Ok (mkUserResult (omitPassword (mkDoc "u1" (mkUser "a@x.com" "h:pw1" true 0))))
  ∧ codes first.2 !! "c1" = None
  ∧ verifyEmail "c1" (set_now 2000 first.2)
    = (Err (mkAppError NOT_FOUND "Invalid or expired verification code"),
       set_now 2000 first.2).
Proof.
  intros first.
  destruct (verifyEmail_single_use "c1" (world_code EmailVerification)
              (mkUserResult (omitPassword (mkDoc "u1" (mkUser "a@x.com" "h:pw1" true 0))))
              first.2)
    as (_ & _ & Hgone & Hagain); [reflexivity|].
  split_and!; [reflexivity | exact Hgone | exact (Hagain 2000)].
Defined.

(** ** Password-reset request *)

(** C6, as the code behaves: the throttle counts the codes that are
    stored, and [resetPassword] deletes the code it consumes, so a
    consumed code no longer counts.  Alice asks for a reset at 1000 and
    at 2000, completes a reset with the first code at 2500, and asks
    again at 3000, all within one five-minute window: the third request
    stores a third code, sends a third mail and returns its url, where
    the claim, and the source's own comment on the check (max password
    reset requests, 2 emails in 5min), allow two. *)
Lemma third_reset_request_after_consumption :
  let ask := SendPasswordResetEmail "a@x.com" in
  let requested := serve [(demo_env, 1000, ask); (demo_env, 2000, ask)] world_alice in
  let consumed :=
    (call demo_env (ResetPassword (mkResetPasswordParams "pw2" "0"))
       (set_now 2500 requested)).2 in
  let third := call demo_env ask (set_now 3000 consumed) in
  Forall (λ t, 3000 - FIVE_MINUTES_MS < t ≤ 3000) [1000; 2000; 3000]
  ∧ codes requested
    = {[ "0" := mkCode "u1" PasswordReset (1000 + ONE_HOUR_MS) 1000;
         "1" := mkCode "u1" PasswordReset (2000 + ONE_HOUR_MS) 2000 ]}
  ∧ codes consumed = {[ "1" := mkCode "u1" PasswordReset (2000 + ONE_HOUR_MS) 2000 ]}
  ∧ third.1
    = Ok (ReturnedResetEmail
            (mkResetEmailResult (Some "http://app/password/reset?code=2&exp=3603000")
               (Some "m1")))
  ∧ codes third.2
    = {[ "1" := mkCode "u1" PasswordReset (2000 + ONE_HOUR_MS) 2000;
         "2" := mkCode "u1" PasswordReset (3000 + ONE_HOUR_MS) 3000 ]}
  ∧ mail_to <$> outbox third.2 = ["a@x.com"; "a@x.com"; "a@x.com"].
Proof.
  intros ask requested consumed third. split.
  - repeat constructor; vm_compute; discriminate.
  - vm_compute. done.
Qed.

(** C7: [sendPasswordResetEmail] returns normally for every address,
    every store content and every mailer behaviour; indeed its [catch]
    turns whatever the [try] block throws into the same empty result.
    The result holds the reset url and the delivery id exactly when the
    user was found, the throttle let the request pass and the mailer
    reported a delivery id, which is exactly when the [try] block
    returned; in every other case it is the empty result, the same one
    whichever step failed. *)
Theorem sendPasswordResetEmail_uniform env e w :
  (∃ r w', sendPasswordResetEmail env e w = (Ok r, w')
     ∧ (pipeline_succeeds env e w →
          ∃ id, reset_delivery env e w = Some id
                ∧ r = mkResetEmailResult (Some (reset_url env w)) (Some id))
     ∧ (¬ pipeline_succeeds env e w → r = empty_result))
  ∧ (pipeline_succeeds env e w
     ↔ ∃ r0 w0, sendPasswordResetEmail_try env e w = (Ok r0, w0))
  ∧ (∀ (body : M ResetEmailResult) w1,
       ∃ r w', try_catch body sendPasswordResetEmail_catch w1 = (Ok r, w')
               ∧ ∀ error w2, body w1 = (Err error, w2) → r = empty_result).
Proof.
  split_and!.
  - rewrite sendPasswordResetEmail_cases, sendPasswordResetEmail_try_cases.
    unfold pipeline_succeeds.
    destruct (find_by_email e (users w)) as [u|].
    + destruct (decide (recent_resets (_id u) w ≤ 1)%nat) as [Hcount|Hcount].
      * destruct (reset_delivery env e w) as [id|] eqn:Hid.
        -- eexists _, _. split_and!; [done | by exists id |].
           intros []. exists u. split_and!; [done | done | by eexists].
        -- eexists _, _. split_and!; [done | | done].
           intros (? & _ & _ & [? [=]]).
      * eexists _, _. split_and!; [done | | done].
        intros (u' & [= <-] & ? & _). lia.
    + eexists _, _. split_and!; [done | | done].
      by intros (? & [=] & _).
  - rewrite sendPasswordResetEmail_try_cases. unfold pipeline_succeeds.
    destruct (find_by_email e (users w)) as [u|].
    + destruct (decide (recent_resets (_id u) w ≤ 1)%nat) as [Hcount|Hcount].
      * destruct (reset_delivery env e w) as [id|] eqn:Hid.
        -- split; [by eauto|]. intros _. exists u. split_and!; [done | done | by eexists].
        -- split; [intros (? & _ & _ & [? [=]]) | by intros (? & ? & [=])].
      * split; [|by intros (? & ? & [=])].
        intros (u' & [= <-] & ? & _). lia.
    + split; [by intros (? & [=] & _) | by intros (? & ? & [=])].
  - intros body w1. unfold try_catch.
    destruct (body w1) as [[r | error] w2].
    + eexists _, _. split; [done|]. by intros ? ? [=].
    + eexists _, _. split; [done|]. done.
Qed.

(** ** Across the operations *)

(** C8: whichever of the six operations is called, when the call
    succeeds and the returned value carries a user object, that object
    has no password field.  (Token refresh and the password-reset
    request return no user object.) *)
Theorem returned_user_omits_password env op w r w' :
  call env op w = (Ok r, w') →
  ∀ u, returned_user r = Some u → u !! "password" = None.
Proof.
  revert w r w'. change (ensures (call env op) no_password).
  destruct op; unfold call.
  - eapply ensures_then; [apply createAccount_ensures|].
    intros r Hr. apply ensures_ret. by intros u [= <-].
  - eapply ensures_then; [apply loginUser_ensures|].
    intros r Hr. apply ensures_ret. by intros u [= <-].
  - apply ensures_bind; intros r. by apply ensures_ret.
  - eapply ensures_then; [apply verifyEmail_ensures|].
    intros r Hr. apply ensures_ret. by intros u [= <-].
  - apply ensures_bind; intros r. by apply ensures_ret.
  - eapply ensures_then; [apply resetPassword_ensures|].
    intros r Hr. apply ensures_ret. by intros u [= <-].
Qed.

Lemma returned_user_omits_password_witness :
  let run := call demo_env (LoginUser (mkLoginParams "a@x.com" "pw1" None)) world_alice in
  ∃ r u, run.1 = Ok r
         ∧ returned_user r = Some u
         ∧ u !! "email" = Some (JStr "a@x.com")
         ∧ u !! "password" = None.
Proof.
  intros run.
  exists (ReturnedAuth (mkAuthResult (omitPassword (mkDoc "u1" alice)) "at:u1:0" "rt:0")),
    (omitPassword (mkDoc "u1" alice)).
  split_and!; [reflexivity | reflexivity | reflexivity |].
  apply (returned_user_omits_password demo_env
           (LoginUser (mkLoginParams "a@x.com" "pw1" None)) world_alice
           (ReturnedAuth (mkAuthResult (omitPassword (mkDoc "u1" alice)) "at:u1:0" "rt:0"))
           run.2); reflexivity.
Defined.

(** C9: [refreshUserAccessToken] leaves the users, the codes and the set
    of stored session ids as they are, whether it succeeds or fails, and
    sends and logs nothing; a session it stores differently from before
    is the one the token names, that session was live with at most 24
    hours left, and only its [expiresAt] changed. *)
Theorem refresh_frame env tok w :
  let w' := (refreshUserAccessToken env tok w).2 in
  users w' = users w
  ∧ codes w' = codes w
  ∧ dom (sessions w') = dom (sessions w)
  ∧ (outbox w', console w', issued w') = (outbox w, console w, issued w)
  ∧ ∀ sid s', sessions w' !! sid = Some s' →
      sessions w !! sid = Some s'
      ∨ ∃ p s, verifyToken env tok refreshTokenSignOptions = Some p
               ∧ payload_sessionId p = sid
               ∧ sessions w !! sid = Some s
               ∧ live (now w) s
               ∧ session_expiresAt s - now w ≤ ONE_DAY_MS
               ∧ s' = set_expiresAt (now w + THIRTY_DAYS_MS) s.
Proof.
  rewrite refreshUserAccessToken_cases.
  destruct (verifyToken env tok refreshTokenSignOptions) as [p|]; simpl; [|by repeat split; auto].
  destruct (sessions w !! payload_sessionId p) as [s|] eqn:Hs; [|by repeat split; auto].
  destruct (decide (now w < session_expiresAt s)) as [Hlive|]; [|by repeat split; auto].
  destruct (decide (session_expiresAt s - now w ≤ ONE_DAY_MS)) as [Hleft|]; [|by repeat split; auto].
  simpl. split_and!; [done | done | | done |].
  - by apply dom_insert_lookup_L.
  - intros sid s' Hs'. destruct (decide (payload_sessionId p = sid)) as [<- | Hne].
    + rewrite lookup_insert_eq in Hs'. right. exists p, s. naive_solver.
    + rewrite lookup_insert_ne in Hs' by done. by left.
Qed.

(** C10: a session whose [expiresAt] is at or before the clock is not
    changed by any of the six operations.  After one call the clock
    reads the same and the session is stored exactly as before, unless
    the call was a password reset that deleted it; a refresh with a
    token naming it stops at Unauthorized "Session expired" and writes
    nothing.  Over any run of calls served at or after its expiry and
    free of password resets, the session stays stored as it was, so it
    is not live at any of those clock readings. *)
Theorem expired_session_never_renewed env op w sid s :
  sessions w !! sid = Some s →
  session_expiresAt s ≤ now w →
  (let w' := (call env op w).2 in
   now w' = now w
   ∧ (sessions w' !! sid = Some s
      ∨ (sessions w' !! sid = None ∧ is_ResetPassword op)))
  ∧ (∀ tok p, verifyToken env tok refreshTokenSignOptions = Some p →
       payload_sessionId p = sid →
       refreshUserAccessToken env tok w
       = (Err (mkAppError UNAUTHORIZED "Session expired"), w))
  ∧ (∀ calls,
       Forall (λ c, session_expiresAt s ≤ c.1.2 ∧ ¬ is_ResetPassword c.2) calls →
       sessions (serve calls w) !! sid = Some s
       ∧ Forall (λ c, ¬ live c.1.2 s) calls).
Proof.
  intros Hs Hexp. split_and!.
  - by apply call_expired_session.
  - intros tok p Hv <-. rewrite refreshUserAccessToken_cases, Hv. simpl.
    rewrite Hs. by rewrite decide_False by lia.
  - intros calls Hcalls. split.
    + clear Hexp. revert w Hs. induction Hcalls as [|[[env' t] op'] rest [Ht Hop] _ IH];
        intros w Hs; [done|].
      simpl in *. apply IH.
      destruct (call_expired_session env' op' (set_now t w) sid s Hs Ht)
        as [_ [Hkept | [_ Hreset]]]; done.
    + eapply Forall_impl; [exact Hcalls|]. intros c [Ht _]. unfold live. lia.
Qed.

Lemma expired_session_never_renewed_witness :
  (sessions (call demo_env (LoginUser (mkLoginParams "a@x.com" "pw1" None))
               (world_session 0)).2 !! "s1"
   = Some (mkSession "u1" None (1000 + 0) 0))
  ∧ refreshUserAccessToken demo_env "rt:s1" (world_session 0)
    = (Err (mkAppError UNAUTHORIZED "Session expired"), world_session 0).
Proof.
  destruct (expired_session_never_renewed demo_env
              (LoginUser (mkLoginParams "a@x.com" "pw1" None)) (world_session 0) "s1"
              (mkSession "u1" None (1000 + 0) 0))
    as ((_ & Hkept) & Hrefresh & _);
    [reflexivity | vm_compute; discriminate |].
  split.
  - destruct Hkept as [Hkept | [_ []]]. exact Hkept.
  - exact (Hrefresh "rt:s1" (mkPayload None "s1") eq_refl eq_refl).
Defined.

(** * Further properties of the service *)

(** ** Looking users up by email *)

Lemma find_by_email_None e (us : gmap string UserDocument) :
  find_by_email e us = None ↔ ∀ id u, us !! id = Some u → email u ≠ e.
Proof.
  unfold find_by_email. rewrite fmap_None, list_find_None, Forall_forall. split.
  - intros H id u Hu. apply (H (id, u)). by apply elem_of_map_to_list.
  - intros H [id u] Hin. apply elem_of_map_to_list in Hin. by apply (H id u).
Qed.

Lemma find_by_email_found e (us : gmap string UserDocument) id u :
  us !! id = Some u → email u = e → is_Some (find_by_email e us).
Proof.
  intros Hu He. destruct (find_by_email e us) eqn:Hf; [by eexists|].
  rewrite find_by_email_None in Hf. by destruct (Hf id u Hu).
Qed.

(** Where one stored user has the email, that user is the one found. *)
Lemma find_by_email_only e (us : gmap string UserDocument) id u :
  us !! id = Some u → email u = e →
  (∀ id' u', us !! id' = Some u' → email u' = e → id' = id) →
  find_by_email e us = Some (mkDoc id u).
Proof.
  intros Hu He Honly. destruct (find_by_email_found e us id u Hu He) as [d Hd].
  rewrite Hd. apply find_by_email_Some in Hd as [Hin Hmail].
  destruct d as [id' u']. simpl in *.
  assert (id' = id) as -> by by eapply Honly.
  rewrite Hu in Hin. by injection Hin as ->.
Qed.

Lemma find_by_email_insert_new e (us : gmap string UserDocument) id u :
  find_by_email e us = None → email u = e →
  find_by_email e (<[id := u]> us) = Some (mkDoc id u).
Proof.
  intros Hnone He. rewrite find_by_email_None in Hnone.
  apply find_by_email_only; [apply lookup_insert_eq | done |].
  intros id' u' Hu' He'. destruct (decide (id' = id)) as [|Hne]; [done|].
  rewrite lookup_insert_ne in Hu' by done. by destruct (Hnone id' u' Hu').
Qed.

(** ** Account creation, path by path *)

Lemma createAccount_taken env data w u :
  find_by_email (create_email data) (users w) = Some u →
  createAccount env data w = (Err (mkAppError CONFLICT "Email already in use"), w).
Proof.
  intros Hu. unfold createAccount, UserModel_exists. run_monad. by rewrite Hu.
Qed.

Lemma createAccount_run env data w :
  find_by_email (create_email data) (users w) = None →
  ∃ uid cid sid w',
    let newUser :=
      mkUser (create_email data) (hashValue env (create_password data)) false (now w) in
    createAccount env data w
    = (Ok (mkAuthResult (omitPassword (mkDoc uid newUser))
             (signToken env (mkPayload (Some uid) sid) accessTokenSignOptions)
             (signToken env (mkPayload None sid) refreshTokenSignOptions)), w')
    ∧ users w !! uid = None ∧ codes w !! cid = None ∧ sessions w !! sid = None
    ∧ users w' = <[uid := newUser]> (users w)
    ∧ codes w'
      = <[cid := mkCode uid EmailVerification (now w + ONE_YEAR_MS) (now w)]> (codes w)
    ∧ sessions w'
      = <[sid := mkSession uid (create_userAgent data) (now w + THIRTY_DAYS_MS) (now w)]>
          (sessions w)
    ∧ outbox w' = outbox w ++ [verify_mail env (create_email data) cid]
    ∧ now w' = now w.
Proof.
  intros Hfree. unfold createAccount, UserModel_exists, UserModel_create,
    VerificationCodeModel_create, sendMail, SessionModel_create.
  run_monad. rewrite Hfree. simpl.
  set (w1 := set_users _ (add_issued (next_id w) w)).
  set (w2 := set_codes _ (add_issued (next_id w1) w1)).
  exists (next_id w), (next_id w1).
  destruct (mail_error _); simpl.
  - set (w3 := add_console _ _). exists (next_id w3). eexists. split; [reflexivity|].
    split_and!; try done;
      [apply next_id_users | apply (next_id_codes w1) | apply (next_id_sessions w3)].
  - set (w3 := add_outbox _ _). exists (next_id w3). eexists. split; [reflexivity|].
    split_and!; try done;
      [apply next_id_users | apply (next_id_codes w1) | apply (next_id_sessions w3)].
Qed.

(** ** What one call writes to each collection *)

Lemma call_users env op w :
  let us' := users (call env op w).2 in
  us' = users w
  ∨ (∃ data id u, op = CreateAccount data ∧ users w !! id = None
       ∧ find_by_email (create_email data) (users w) = None
       ∧ email u = create_email data ∧ us' = <[id := u]> (users w))
  ∨ (∃ code id u, op = VerifyEmail code ∧ users w !! id = Some u
       ∧ us' = <[id := set_verified u]> (users w))
  ∨ (∃ params id u, op = ResetPassword params ∧ users w !! id = Some u
       ∧ us' = <[id := set_password (hashValue env (reset_password params)) u]> (users w)).
Proof.
  rewrite call_world. destruct op as [data|params|tok|code|e|params].
  - destruct (find_by_email (create_email data) (users w)) as [u|] eqn:Hfind.
    + rewrite (createAccount_taken _ _ _ _ Hfind). by left.
    + destruct (createAccount_run env data w Hfind)
        as (uid & cid & sid & w' & Hrun & Hu & _ & _ & Hus & _).
      rewrite Hrun. right; left.
      exists data, uid,
        (mkUser (create_email data) (hashValue env (create_password data)) false (now w)).
      by split_and!.
  - rewrite loginUser_cases. left. by destruct (find_by_email _ _).
  - rewrite refreshUserAccessToken_cases. left.
    destruct (verifyToken _ _ _) as [p|]; simpl; [|done].
    destruct (sessions w !! _) as [s|]; [|done].
    by repeat destruct (decide _).
  - rewrite verifyEmail_cases. destruct (codes w !! code) as [c|]; [|by left].
    destruct (decide _); [|by left]. simpl.
    destruct (users w !! code_userId c) as [u|] eqn:Hu; [|by left].
    right; right; left. by exists code, (code_userId c), u.
  - destruct (sendPasswordResetEmail_codes env e w) as (Hus & _). by left.
  - rewrite resetPassword_cases. simpl.
    destruct (codes w !! _) as [c|]; [|by left].
    destruct (decide _); [|by left]. simpl.
    destruct (users w !! code_userId c) as [u|] eqn:Hu; [|by left].
    right; right; right. by exists params, (code_userId c), u.
Qed.

Lemma call_codes env op w :
  let cs' := codes (call env op w).2 in
  cs' = codes w
  ∨ (∃ id c, codes w !! id = None ∧ cs' = <[id := c]> (codes w)
       ∧ code_createdAt c = now w
       ∧ ((∃ data, op = CreateAccount data ∧ code_type c = EmailVerification)
          ∨ (∃ e, op = SendPasswordResetEmail e ∧ code_type c = PasswordReset)))
  ∨ (∃ id, consumes id op ∧ is_Some (codes w !! id) ∧ cs' = delete id (codes w)).
Proof.
  rewrite call_world. destruct op as [data|params|tok|code|e|params].
  - destruct (find_by_email (create_email data) (users w)) as [u|] eqn:Hfind.
    + rewrite (createAccount_taken _ _ _ _ Hfind). by left.
    + destruct (createAccount_run env data w Hfind)
        as (uid & cid & sid & w' & Hrun & _ & Hc & _ & _ & Hcs & _).
      rewrite Hrun. right; left. eexists cid, _. split_and!; [done | done | done |].
      left. by exists data.
  - rewrite loginUser_cases. left. by destruct (find_by_email _ _).
  - rewrite refreshUserAccessToken_cases. left.
    destruct (verifyToken _ _ _) as [p|]; simpl; [|done].
    destruct (sessions w !! _) as [s|]; [|done].
    by repeat destruct (decide _).
  - rewrite verifyEmail_cases. destruct (codes w !! code) as [c|] eqn:Hc; [|by left].
    destruct (decide _); [|by left]. simpl.
    destruct (users w !! code_userId c) as [u|] eqn:Hu; [|by left].
    right; right. exists code. by rewrite Hc.
  - destruct (sendPasswordResetEmail_codes env e w)
      as (_ & _ & [Hsame | (u & _ & _ & Hnew)]); [by left|].
    right; left. eexists (next_id w), _. split_and!; [apply next_id_codes | done | done |].
    right. by exists e.
  - rewrite resetPassword_cases. simpl.
    destruct (codes w !! _) as [c|] eqn:Hc; [|by left].
    destruct (decide _); [|by left]. simpl.
    destruct (users w !! code_userId c) as [u|] eqn:Hu; [|by left].
    right; right. exists (reset_verificationCode params). by rewrite Hc.
Qed.

Lemma call_sessions env op w :
  let ss' := sessions (call env op w).2 in
  ss' = sessions w
  ∨ (∃ id s, sessions w !! id = None ∧ ss' = <[id := s]> (sessions w)
       ∧ session_createdAt s = now w
       ∧ ((∃ data, op = CreateAccount data) ∨ (∃ params, op = LoginUser params)))
  ∨ (∃ tok id s, op = RefreshUserAccessToken tok ∧ sessions w !! id = Some s
       ∧ live (now w) s ∧ session_expiresAt s - now w ≤ ONE_DAY_MS
       ∧ ss' = <[id := set_expiresAt (now w + THIRTY_DAYS_MS) s]> (sessions w))
  ∨ (∃ params uid, op = ResetPassword params
       ∧ ss' = filter (λ kv, session_userId kv.2 ≠ uid) (sessions w)).
Proof.
  rewrite call_world. destruct op as [data|params|tok|code|e|params].
  - destruct (find_by_email (create_email data) (users w)) as [u|] eqn:Hfind.
    + rewrite (createAccount_taken _ _ _ _ Hfind). by left.
    + destruct (createAccount_run env data w Hfind)
        as (uid & cid & sid & w' & Hrun & _ & _ & Hs & _ & _ & Hss & _).
      rewrite Hrun. right; left. eexists sid, _. split_and!; [done | done | done |].
      left. by exists data.
  - rewrite loginUser_cases. destruct (find_by_email _ _) as [u|]; [|by left].
    right; left. eexists (next_id w), _.
    split_and!; [apply next_id_sessions | done | done |]. right. by exists params.
  - rewrite refreshUserAccessToken_cases.
    destruct (verifyToken _ _ _) as [p|]; simpl; [|by left].
    destruct (sessions w !! _) as [s|] eqn:Hs; [|by left].
    destruct (decide (now w < _)); [|by left].
    destruct (decide (_ ≤ _)); [|by left].
    right; right; left. by exists tok, (payload_sessionId p), s.
  - rewrite verifyEmail_cases. left. destruct (codes w !! code) as [c|]; [|done].
    destruct (decide _); [|done]. simpl. by destruct (users w !! code_userId c).
  - left. rewrite sendPasswordResetEmail_cases, sendPasswordResetEmail_try_cases.
    destruct (find_by_email e (users w)) as [u|]; [|done].
    destruct (decide _); [|done]. by destruct (reset_delivery env e w).
  - rewrite resetPassword_cases. simpl.
    destruct (codes w !! _) as [c|]; [|by left].
    destruct (decide _); [|by left]. simpl.
    destruct (users w !! code_userId c) as [u|]; [|by left].
    right; right; right. by exists params, (code_userId c).
Qed.

Lemma call_now env op w : now (call env op w).2 = now w.
Proof.
  rewrite call_world. destruct op as [data|params|tok|code|e|params].
  - apply createAccount_keeps.
  - apply loginUser_keeps.
  - rewrite refreshUserAccessToken_cases.
    destruct (verifyToken _ _ _) as [p|]; simpl; [|done].
    destruct (sessions w !! _) as [s|]; [|done]. by repeat destruct (decide _).
  - apply verifyEmail_keeps.
  - apply sendPasswordResetEmail_keeps.
  - rewrite resetPassword_cases. simpl.
    destruct (codes w !! _) as [c|]; [|done]. destruct (decide _); [|done]. simpl.
    by destruct (users w !! code_userId c).
Qed.

(** ** Account creation *)

(** X1: [createAccount] with an email some stored user has fails with
    Conflict "Email already in use", whatever the password, and writes
    nothing: no user, code or session is created and no mail is sent. *)
Theorem createAccount_conflict env data w id u :
  users w !! id = Some u →
  email u = create_email data →
  createAccount env data w = (Err (mkAppError CONFLICT "Email already in use"), w).
Proof.
  intros Hu He.
  destruct (find_by_email_found (create_email data) (users w) id u Hu He) as [d Hd].
  by eapply createAccount_taken.
Qed.

Lemma createAccount_conflict_witness :
  createAccount demo_env (mkCreateAccountParams "a@x.com" "other" None) world_alice
  = (Err (mkAppError CONFLICT "Email already in use"), world_alice).
Proof.
  apply (createAccount_conflict demo_env (mkCreateAccountParams "a@x.com" "other" None)
           world_alice "u1" alice); reflexivity.
Defined.

(** X2: [createAccount] with an email no stored user has succeeds,
    whether or not the verification mail could be delivered.  It stores
    one new user with that email, one new email-verification code of
    that user expiring a year from now, and one new session of that user
    with the request's user agent, all under ids unused before and
    different from each other; it sends one mail, to that email, whose
    url ends in the code's id; and the tokens it returns carry the new
    session's id, the access token the new user's id as well. *)
Theorem createAccount_creates env data w :
  find_by_email (create_email data) (users w) = None →
  ∃ uid cid sid u s r w',
    createAccount env data w = (Ok r, w')
    ∧ users w !! uid = None ∧ codes w !! cid = None ∧ sessions w !! sid = None
    ∧ uid ≠ cid ∧ uid ≠ sid ∧ cid ≠ sid
    ∧ users w' = <[uid := u]> (users w) ∧ email u = create_email data
    ∧ codes w'
      = <[cid := mkCode uid EmailVerification (now w + ONE_YEAR_MS) (now w)]> (codes w)
    ∧ sessions w' = <[sid := s]> (sessions w)
    ∧ session_userId s = uid ∧ userAgent s = create_userAgent data
    ∧ outbox w' = outbox w ++ [verify_mail env (create_email data) cid]
    ∧ auth_user r = omitPassword (mkDoc uid u)
    ∧ accessToken r = signToken env (mkPayload (Some uid) sid) accessTokenSignOptions
    ∧ refreshToken r = signToken env (mkPayload None sid) refreshTokenSignOptions.
Proof.
  intros Hfree. unfold createAccount, UserModel_exists, UserModel_create,
    VerificationCodeModel_create, sendMail, SessionModel_create.
  run_monad. rewrite Hfree. simpl.
  set (w1 := set_users _ (add_issued (next_id w) w)).
  set (w2 := set_codes _ (add_issued (next_id w1) w1)).
  assert (next_id w ≠ next_id w1) as Huc.
  { intros Heq. pose proof (next_id_fresh w1) as Hf. rewrite <- Heq in Hf.
    apply Hf. subst w1. simpl. set_solver. }
  assert (∀ w3, issued w3 = issued w2 →
            next_id w ≠ next_id w3 ∧ next_id w1 ≠ next_id w3) as Hs.
  { intros w3 Hi. pose proof (next_id_fresh w3) as Hf. rewrite Hi in Hf. clear Hi.
    assert (next_id w ∈ issued w2 ∧ next_id w1 ∈ issued w2) as [H0 H1].
    { subst w2 w1. simpl. set_solver. }
    split; intros Heq; rewrite <- Heq in Hf; apply Hf;
      do 3 (apply elem_of_union; left); done. }
  exists (next_id w), (next_id w1).
  destruct (mail_error _); simpl.
  - set (w3 := add_console _ _). destruct (Hs w3 eq_refl).
    exists (next_id w3). eexists _, _, _, _. split; [reflexivity|].
    split_and!; try done;
      [apply next_id_users | apply (next_id_codes w1) | apply (next_id_sessions w3)].
  - set (w3 := add_outbox _ _). destruct (Hs w3 eq_refl).
    exists (next_id w3). eexists _, _, _, _. split; [reflexivity|].
    split_and!; try done;
      [apply next_id_users | apply (next_id_codes w1) | apply (next_id_sessions w3)].
Qed.

Lemma createAccount_creates_witness :
  ∃ uid cid sid r w',
    createAccount demo_env_mail_down
      (mkCreateAccountParams "b@x.com" "pw" (Some "firefox")) world_alice = (Ok r, w')
    ∧ (∃ u, users w' !! uid = Some u ∧ email u = "b@x.com")
    ∧ codes w' !! cid = Some (mkCode uid EmailVerification (1000 + ONE_YEAR_MS) 1000)
    ∧ (∃ s, sessions w' !! sid = Some s ∧ session_userId s = uid)
    ∧ refreshToken r = "rt:" +:+ sid.
Proof.
  destruct (createAccount_creates demo_env_mail_down
              (mkCreateAccountParams "b@x.com" "pw" (Some "firefox")) world_alice eq_refl)
    as (uid & cid & sid & u & s & r & w' & Hrun & _ & _ & _ & _ & _ & _
        & Hus & He & Hcs & Hss & Hsu & _ & _ & _ & _ & Hrt).
  exists uid, cid, sid, r, w'. split_and!.
  - exact Hrun.
  - exists u. rewrite Hus. split; [apply lookup_insert_eq | exact He].
  - rewrite Hcs. apply lookup_insert_eq.
  - exists s. rewrite Hss. split; [apply lookup_insert_eq | exact Hsu].
  - exact Hrt.
Defined.

(** X3: an account is created once per email.  After [createAccount]
    has succeeded for an email, a second [createAccount] with the same
    email, whatever its password, user agent, environment and clock
    reading, fails with Conflict and writes nothing. *)
Theorem createAccount_once env env' data password' userAgent' t w :
  find_by_email (create_email data) (users w) = None →
  ∃ r w',
    createAccount env data w = (Ok r, w')
    ∧ createAccount env' (mkCreateAccountParams (create_email data) password' userAgent')
        (set_now t w')
      = (Err (mkAppError CONFLICT "Email already in use"), set_now t w').
Proof.
  intros Hfree.
  destruct (createAccount_run env data w Hfree)
    as (uid & cid & sid & w' & Hrun & _ & _ & _ & Hus & _).
  eexists _, w'. split; [exact Hrun|].
  destruct (find_by_email_found (create_email data) (users (set_now t w')) uid
              (mkUser (create_email data) (hashValue env (create_password data)) false (now w)))
    as [d Hd]; [simpl; rewrite Hus; apply lookup_insert_eq | done |].
  by eapply createAccount_taken.
Qed.

Lemma createAccount_once_witness :
  ∃ r w',
    createAccount demo_env (mkCreateAccountParams "b@x.com" "pw" None) world_alice
    = (Ok r, w')
    ∧ createAccount demo_env_mail_down
        (mkCreateAccountParams "b@x.com" "other" (Some "chrome")) (set_now 5000 w')
      = (Err (mkAppError CONFLICT "Email already in use"), set_now 5000 w').
Proof.
  exact (createAccount_once demo_env demo_env_mail_down
           (mkCreateAccountParams "b@x.com" "pw" None) "other" (Some "chrome") 5000
           world_alice eq_refl).
Defined.

(** ** Users *)

Lemma unique_emails_insert_new w id u :
  find_by_email (email u) (users w) = None →
  unique_emails w → unique_emails (set_users (insert id u) w).
Proof.
  intros Hnone Hw id1 id2 u1 u2. simpl. rewrite find_by_email_None in Hnone.
  rewrite !lookup_insert. repeat case_decide; simplify_eq; try done.
  - intros [= <-] Hu2 He. by destruct (Hnone id2 u2 Hu2).
  - intros Hu1 [= <-] He. by destruct (Hnone id1 u1 Hu1).
  - apply Hw.
Qed.

Lemma unique_emails_update w id u u' :
  users w !! id = Some u → email u' = email u →
  unique_emails w → unique_emails (set_users (insert id u') w).
Proof.
  intros Hu He Hw id1 id2 u1 u2. simpl.
  rewrite !lookup_insert. repeat case_decide; simplify_eq; try done.
  - intros [= <-] Hu2 He2. symmetry. eapply Hw; [exact Hu2 | exact Hu | congruence].
  - intros Hu1 [= <-] He1. eapply Hw; [exact Hu1 | exact Hu | congruence].
  - apply Hw.
Qed.

Lemma call_unique_emails env op w : unique_emails w → unique_emails (call env op w).2.
Proof.
  intros Hw.
  assert (∀ w', users w' = users w → unique_emails w') as Hsame.
  { intros w' Hus id1 id2 u1 u2. rewrite Hus. apply Hw. }
  assert (∀ f w', users w' = f (users w) → unique_emails (set_users f w) →
            unique_emails w') as Hset.
  { intros f w' Hus Hu id1 id2 u1 u2. rewrite Hus. apply Hu. }
  destruct (call_users env op w)
    as [Hus | [(data & id & u & _ & _ & Hfree & He & Hus)
       | [(code & id & u & _ & Hu & Hus) | (params & id & u & _ & Hu & Hus)]]].
  - by apply Hsame.
  - eapply Hset; [exact Hus|]. apply unique_emails_insert_new; [by rewrite He | done].
  - eapply Hset; [exact Hus|]. by eapply unique_emails_update.
  - eapply Hset; [exact Hus|]. by eapply unique_emails_update.
Qed.

(** X4: email addresses stay unique.  If no two stored users share an
    email, this is still so after any call of any of the six
    operations, and after any run of calls; in particular in every
    store the service builds from the empty one. *)
Theorem unique_emails_kept env op w :
  unique_emails w →
  unique_emails (call env op w).2
  ∧ (∀ calls, unique_emails (serve calls w))
  ∧ (∀ calls t, unique_emails (serve calls (empty_world t))).
Proof.
  intros Hw.
  assert (∀ calls w0, unique_emails w0 → unique_emails (serve calls w0)) as Hserve.
  { induction calls as [|[[env' t] op'] rest IH]; intros w0 Hw0; [done|].
    simpl. apply IH. apply call_unique_emails.
    intros id1 id2 u1 u2. apply Hw0. }
  split_and!.
  - by apply call_unique_emails.
  - intros calls. by apply Hserve.
  - intros calls t. apply Hserve. intros id1 id2 u1 u2. simpl.
    by rewrite lookup_empty.
Qed.

Lemma unique_emails_kept_witness :
  let join e := (demo_env, 0, CreateAccount (mkCreateAccountParams e "pw" None)) in
  unique_emails (serve [join "a@x.com"; join "b@x.com"; join "a@x.com"] (empty_world 0)).
Proof.
  intros join.
  assert (unique_emails (empty_world 0)) as Hempty.
  { intros id1 id2 u1 u2. simpl. intros Hu. exfalso. revert Hu. apply lookup_empty_Some. }
  destruct (unique_emails_kept demo_env (LoginUser (mkLoginParams "" "" None))
              (empty_world 0) Hempty) as (_ & Hserve & _).
  apply Hserve.
Defined.

(** X5: users are never deleted and keep their identity.  A stored user
    is still stored under the same id after any call, with the same
    email and creation time; a verified user stays verified; and only a
    password reset changes the stored password. *)
Theorem users_persist env op w id u :
  users w !! id = Some u →
  ∃ u', users (call env op w).2 !! id = Some u'
        ∧ email u' = email u
        ∧ user_createdAt u' = user_createdAt u
        ∧ (verified u = true → verified u' = true)
        ∧ (password u' ≠ password u → is_ResetPassword op).
Proof.
  intros Hu.
  destruct (call_users env op w)
    as [Hus | [(data & id' & u0 & _ & Hnew & _ & _ & Hus)
       | [(code & id' & u0 & -> & Hu0 & Hus) | (params & id' & u0 & -> & Hu0 & Hus)]]];
    rewrite Hus.
  - exists u. by split_and!.
  - exists u. rewrite lookup_insert_ne by congruence. by split_and!.
  - destruct (decide (id' = id)) as [-> | Hne].
    + rewrite lookup_insert_eq. simplify_eq. eexists. by split_and!.
    + rewrite lookup_insert_ne by done. exists u. by split_and!.
  - destruct (decide (id' = id)) as [-> | Hne].
    + rewrite lookup_insert_eq. simplify_eq. eexists. by split_and!.
    + rewrite lookup_insert_ne by done. exists u. by split_and!.
Qed.

Lemma users_persist_witness :
  ∃ u', users (call demo_env (VerifyEmail "c1") (world_code EmailVerification)).2 !! "u1"
        = Some u'
        ∧ email u' = "a@x.com".
Proof.
  destruct (users_persist demo_env (VerifyEmail "c1") (world_code EmailVerification)
              "u1" alice eq_refl) as (u' & Hu' & He & _).
  exists u'. split; [exact Hu' | exact He].
Defined.

(** ** Login *)

(** X6: [loginUser] with an email no stored user has fails with
    Unauthorized "Invalid email or password" and writes nothing. *)
Theorem loginUser_unknown_email env params w :
  (∀ id u, users w !! id = Some u → email u ≠ login_email params) →
  loginUser env params w
  = (Err (mkAppError UNAUTHORIZED "Invalid email or password"), w).
Proof.
  intros Hnone. apply find_by_email_None in Hnone.
  by rewrite loginUser_cases, Hnone.
Qed.

Lemma loginUser_unknown_email_witness :
  loginUser demo_env (mkLoginParams "nobody@x.com" "pw1" None) world_alice
  = (Err (mkAppError UNAUTHORIZED "Invalid email or password"), world_alice).
Proof.
  apply (loginUser_unknown_email demo_env (mkLoginParams "nobody@x.com" "pw1" None)
           world_alice).
  intros id u Hu. unfold world_alice in Hu. simpl in Hu.
  apply lookup_singleton_Some in Hu as [_ <-]. discriminate.
Defined.

(** X7: a user may hold several sessions.  Two logins with the same
    email, at any two clock readings and from any user agents, both
    succeed; each stores a session of that user under an id unused
    before, the two ids differ, the first session is still stored after
    the second login, each refresh token carries its own session's id,
    and neither login touches the users or the codes. *)
Theorem loginUser_concurrent_sessions env env' e pw pw' ua ua' t w u :
  find_by_email e (users w) = Some u →
  ∃ sid1 sid2 s1 s2 r1 w1 r2 w2,
    loginUser env (mkLoginParams e pw ua) w = (Ok r1, w1)
    ∧ loginUser env' (mkLoginParams e pw' ua') (set_now t w1) = (Ok r2, w2)
    ∧ sid1 ≠ sid2
    ∧ sessions w !! sid1 = None ∧ sessions w !! sid2 = None
    ∧ sessions w2 = <[sid2 := s2]> (<[sid1 := s1]> (sessions w))
    ∧ session_userId s1 = _id u ∧ session_userId s2 = _id u
    ∧ userAgent s1 = ua ∧ userAgent s2 = ua'
    ∧ refreshToken r1 = signToken env (mkPayload None sid1) refreshTokenSignOptions
    ∧ refreshToken r2 = signToken env' (mkPayload None sid2) refreshTokenSignOptions
    ∧ users w2 = users w ∧ codes w2 = codes w.
Proof.
  intros Hu.
  set (s1 := mkSession (_id u) ua (now w + THIRTY_DAYS_MS) (now w)).
  set (w1 := set_sessions (insert (next_id w) s1) (add_issued (next_id w) w)).
  set (s2 := mkSession (_id u) ua' (t + THIRTY_DAYS_MS) t).
  pose proof (next_id_fresh (set_now t w1)) as Hfresh. simpl in Hfresh.
  exists (next_id w), (next_id (set_now t w1)), s1, s2.
  eexists _, w1, _, _. split; [|split].
  - rewrite loginUser_cases. simpl. rewrite Hu. reflexivity.
  - rewrite loginUser_cases. simpl. rewrite Hu. reflexivity.
  - simpl. split_and!; try done.
    + intros Heq. rewrite <- Heq in Hfresh. set_solver.
    + apply next_id_sessions.
    + apply not_elem_of_dom. intros Hin. apply Hfresh.
      rewrite dom_insert_L. set_solver.
Qed.

Lemma loginUser_concurrent_sessions_witness :
  ∃ r1 w1 r2 w2,
    loginUser demo_env (mkLoginParams "a@x.com" "pw1" (Some "phone")) world_alice
    = (Ok r1, w1)
    ∧ loginUser demo_env (mkLoginParams "a@x.com" "pw1" (Some "laptop")) (set_now 2000 w1)
      = (Ok r2, w2)
    ∧ refreshToken r1 ≠ refreshToken r2
    ∧ size (sessions w2) = 2%nat.
Proof.
  destruct (loginUser_concurrent_sessions demo_env demo_env "a@x.com" "pw1" "pw1"
              (Some "phone") (Some "laptop") 2000 world_alice (mkDoc "u1" alice) eq_refl)
    as (sid1 & sid2 & s1 & s2 & r1 & w1 & r2 & w2
        & Hrun1 & Hrun2 & Hne & Hn1 & Hn2 & Hss & _ & _ & _ & _ & Hr1 & Hr2 & _).
  exists r1, w1, r2, w2. split_and!; [exact Hrun1 | exact Hrun2 | |].
  - rewrite Hr1, Hr2. simpl. intros [= Heq]. exact (Hne Heq).
  - rewrite Hss, map_size_insert_None, map_size_insert_None; [reflexivity | exact Hn1 |].
    rewrite lookup_insert_ne; [exact Hn2 | exact Hne].
Defined.

(** X8: registration and login compose.  After [createAccount] has
    succeeded, [loginUser] with the registered email and password
    succeeds at any clock reading, returns the same user object as the
    registration did, and stores a second session beside the one the
    registration created. *)
Theorem createAccount_then_loginUser env env' data ua t w :
  find_by_email (create_email data) (users w) = None →
  ∃ r w' r2 w2,
    createAccount env data w = (Ok r, w')
    ∧ loginUser env' (mkLoginParams (create_email data) (create_password data) ua)
        (set_now t w')
      = (Ok r2, w2)
    ∧ auth_user r2 = auth_user r
    ∧ sessions w' ⊆ sessions w2
    ∧ size (sessions w2) = S (S (size (sessions w))).
Proof.
  intros Hfree.
  destruct (createAccount_run env data w Hfree)
    as (uid & cid & sid & w' & Hrun & _ & _ & Hsid & Hus & _ & Hss & _).
  pose proof (next_id_sessions (set_now t w')) as Hnew. simpl in Hnew.
  eexists _, w', _, _. split; [exact Hrun|]. split.
  - rewrite loginUser_cases. simpl. rewrite Hus.
    erewrite find_by_email_insert_new; [reflexivity | exact Hfree | reflexivity].
  - simpl. split_and!; [done | by apply insert_subseteq |].
    rewrite map_size_insert_None by done.
    by rewrite Hss, map_size_insert_None.
Qed.

Lemma createAccount_then_loginUser_witness :
  ∃ r w' r2 w2,
    createAccount demo_env (mkCreateAccountParams "b@x.com" "pw" None) world_alice
    = (Ok r, w')
    ∧ loginUser demo_env (mkLoginParams "b@x.com" "pw" None) (set_now 2000 w') = (Ok r2, w2)
    ∧ auth_user r2 = auth_user r
    ∧ size (sessions w2) = 2%nat.
Proof.
  destruct (createAccount_then_loginUser demo_env demo_env
              (mkCreateAccountParams "b@x.com" "pw" None) None 2000 world_alice eq_refl)
    as (r & w' & r2 & w2 & Hrun & Hlogin & Huser & _ & Hsize).
  exists r, w', r2, w2. split_and!; [exact Hrun | exact Hlogin | exact Huser | exact Hsize].
Defined.

(** ** Token refresh and sessions *)



(** The demo signer's round trip. *)
Lemma substring_all (s : string) : String.substring 0 (String.length s) s = s.
Proof. induction s as [|c s IH]; simpl; [done | by rewrite IH]. Qed.

Lemma demo_refresh_token_verifies sid : refresh_token_verifies demo_env sid.
Proof.
  exists (mkPayload None sid). split; [|done]. simpl.
  change ("" +:+ sid) with sid.
  replace (String.substring 0 0 sid) with "" by (by destruct sid).
  rewrite decide_True by done. by rewrite Nat.sub_0_r, substring_all.
Qed.

(** X10: the refresh token a login returns works.  Where the signer
    verifies the refresh tokens it signs, a login's refresh token names
    the session the login stored, and [refreshUserAccessToken] accepts
    it at every clock reading at which that session is live, returning
    an access token signed for the logged-in user and that session. *)
Theorem loginUser_then_refresh env e pw ua w u :
  find_by_email e (users w) = Some u →
  (∀ sid, refresh_token_verifies env sid) →
  ∃ sid s r w',
    loginUser env (mkLoginParams e pw ua) w = (Ok r, w')
    ∧ sessions w' !! sid = Some s
    ∧ ∀ t, live t s →
        ∃ r' w'',
          refreshUserAccessToken env (refreshToken r) (set_now t w') = (Ok r', w'')
          ∧ refresh_accessToken r'
            = signToken env (mkPayload (Some (_id u)) sid) accessTokenSignOptions.
Proof.
  intros Hu Hsigner. destruct (Hsigner (next_id w)) as (p & Hp & Hsid).
  eexists (next_id w), _, _, _. split; [|split].
  - rewrite loginUser_cases. simpl. rewrite Hu. reflexivity.
  - simpl. apply lookup_insert_eq.
  - intros t Hlive. unfold live in Hlive. simpl in Hlive.
    rewrite refreshUserAccessToken_cases. simpl. rewrite Hp. simpl. rewrite Hsid.
    rewrite lookup_insert_eq. simpl. rewrite decide_True by done.
    destruct (decide _); eexists _, _; by split.
Qed.

Lemma loginUser_then_refresh_witness :
  ∃ sid r w' r' w'',
    loginUser demo_env (mkLoginParams "a@x.com" "pw1" None) world_alice = (Ok r, w')
    ∧ refreshUserAccessToken demo_env (refreshToken r) (set_now 2000 w') = (Ok r', w'')
    ∧ refresh_accessToken r' = "at:u1:" +:+ sid.
Proof.
  destruct (loginUser_then_refresh demo_env "a@x.com" "pw1" None world_alice
              (mkDoc "u1" alice) eq_refl demo_refresh_token_verifies)
    as (sid & s & r & w' & Hrun & Hs & Hrefresh).
  assert (live 2000 s) as Hlive.
  { vm_compute in Hrun. injection Hrun as _ <-.
    apply elem_of_map_to_list in Hs. vm_compute in Hs.
    apply list_elem_of_singleton in Hs. injection Hs as _ ->. reflexivity. }
  destruct (Hrefresh 2000 Hlive) as (r' & w'' & Hrun' & Haccess).
  exists sid, r, w', r', w''. split_and!; [exact Hrun | exact Hrun' | exact Haccess].
Defined.

(** X11: nothing but a renewal changes a stored session, and nothing but
    a password reset removes one.  After any call a stored session is
    stored as it was; or the call was a refresh that renewed it, it was
    live with at most 24 hours left, and only its [expiresAt] changed,
    to 30 days from now; or the call was a password reset and the
    session is gone. *)
Theorem sessions_change_only_by_renewal_or_reset env op w sid s :
  sessions w !! sid = Some s →
  let ss' := sessions (call env op w).2 in
  ss' !! sid = Some s
  ∨ (∃ tok, op = RefreshUserAccessToken tok
       ∧ live (now w) s ∧ session_expiresAt s - now w ≤ ONE_DAY_MS
       ∧ ss' !! sid = Some (set_expiresAt (now w + THIRTY_DAYS_MS) s))
  ∨ (is_ResetPassword op ∧ ss' !! sid = None).
Proof.
  intros Hs ss'. subst ss'.
  pose proof (call_sessions env op w) as Hcall. cbv zeta in Hcall.
  destruct Hcall
    as [Hss | [(id & s0 & Hnew & Hss & _)
       | [(tok & id & s0 & Hop & Hs0 & Hlive & Hleft & Hss) | (params & uid & Hop & Hss)]]];
    rewrite Hss; clear Hss; try subst op.
  - by left.
  - left. rewrite lookup_insert_ne by congruence. done.
  - destruct (decide (id = sid)) as [-> | Hne].
    + right; left. exists tok. simplify_eq. rewrite lookup_insert_eq. by split_and!.
    + left. by rewrite lookup_insert_ne.
  - destruct (decide (session_userId s = uid)) as [Heq | Hne].
    + right; right. split; [done|]. apply map_lookup_filter_None. right.
      intros s' Hs'. simplify_eq. simpl. by intros ?.
    + left. by apply map_lookup_filter_Some.
Qed.

Lemma sessions_change_only_by_renewal_or_reset_witness :
  sessions (call demo_env (ResetPassword (mkResetPasswordParams "pw2" "c1"))
              (world_code PasswordReset)).2 !! "s1" = None
  ∧ sessions (call demo_env (VerifyEmail "c1") (world_code EmailVerification)).2 !! "s1"
    = Some (mkSession "u1" None (1000 + ONE_DAY_MS) 0).
Proof.
  split.
  - destruct (sessions_change_only_by_renewal_or_reset demo_env
                (ResetPassword (mkResetPasswordParams "pw2" "c1"))
                (world_code PasswordReset) "s1"
                (mkSession "u1" None (1000 + ONE_DAY_MS) 0) eq_refl)
      as [Hkept | [(tok & Hop & _) | [_ Hgone]]].
    + vm_compute in Hkept. discriminate Hkept.
    + discriminate Hop.
    + exact Hgone.
  - destruct (sessions_change_only_by_renewal_or_reset demo_env (VerifyEmail "c1")
                (world_code EmailVerification) "s1"
                (mkSession "u1" None (1000 + ONE_DAY_MS) 0) eq_refl)
      as [Hkept | [(tok & Hop & _) | [[] _]]].
    + exact Hkept.
    + discriminate Hop.
Defined.

(** ** Verification codes *)

(** X12: codes are typed and time-boxed.  [verifyEmail] fails with
    NotFound, writing nothing, exactly when the id names no stored
    email-verification code with [expiresAt > now]; [resetPassword]
    fails with NotFound, writing nothing, exactly when it names no
    stored password-reset code with [expiresAt > now].  So a code of one
    type is refused by the other operation, and a code is refused from
    the instant [now = expiresAt] on. *)
Theorem codes_are_typed_and_timed env id pw w :
  let not_found := mkAppError NOT_FOUND "Invalid or expired verification code" in
  (verifyEmail id w = (Err not_found, w)
   ↔ ¬ ∃ c, codes w !! id = Some c ∧ code_type c = EmailVerification
            ∧ now w < code_expiresAt c)
  ∧ (resetPassword env (mkResetPasswordParams pw id) w = (Err not_found, w)
     ↔ ¬ ∃ c, codes w !! id = Some c ∧ code_type c = PasswordReset
              ∧ now w < code_expiresAt c)
  ∧ (∀ c, codes w !! id = Some c →
       (code_type c = PasswordReset ∨ code_expiresAt c ≤ now w →
        verifyEmail id w = (Err not_found, w))
       ∧ (code_type c = EmailVerification ∨ code_expiresAt c ≤ now w →
          resetPassword env (mkResetPasswordParams pw id) w = (Err not_found, w))).
Proof.
  intros not_found. rewrite verifyEmail_cases, resetPassword_cases. simpl.
  destruct (codes w !! id) as [c|] eqn:Hc.
  - split_and!.
    + destruct (decide (valid_code EmailVerification (now w) c)) as [[Hty Hexp]|Hinv].
      * split; [|intros []; by exists c].
        simpl. by destruct (users w !! code_userId c).
      * split; [|done]. intros _ (c' & [= <-] & Hty & Hexp). by apply Hinv.
    + destruct (decide (valid_code PasswordReset (now w) c)) as [[Hty Hexp]|Hinv].
      * split; [|intros []; by exists c].
        simpl. by destruct (users w !! code_userId c).
      * split; [|done]. intros _ (c' & [= <-] & Hty & Hexp). by apply Hinv.
    + intros c' [= <-]. split; intros Hbad.
      * rewrite decide_False; [done|]. intros [Hty Hexp].
        destruct Hbad as [Hbad | Hbad]; [congruence | lia].
      * rewrite decide_False; [done|]. intros [Hty Hexp].
        destruct Hbad as [Hbad | Hbad]; [congruence | lia].
  - split_and!; [split; [|done]; by intros _ (? & [=] & _)
                | split; [|done]; by intros _ (? & [=] & _) | done].
Qed.

(** X13: a successful [verifyEmail] marks the code's user verified and
    changes nothing else of that user; it deletes the code, leaves every
    other user and code and all sessions as they were, and returns the
    user object with [verified] true and without a password. *)
Theorem verifyEmail_verifies id c u w :
  codes w !! id = Some c →
  code_type c = EmailVerification →
  now w < code_expiresAt c →
  users w !! code_userId c = Some u →
  ∃ r w',
    verifyEmail id w = (Ok r, w')
    ∧ users w'
      = <[code_userId c := mkUser (email u) (password u) true (user_createdAt u)]> (users w)
    ∧ codes w' = delete id (codes w)
    ∧ sessions w' = sessions w
    ∧ user r !! "verified" = Some (JBool true)
    ∧ user r !! "email" = Some (JStr (email u))
    ∧ user r !! "_id" = Some (JStr (code_userId c))
    ∧ user r !! "password" = None.
Proof.
  intros Hc Hty Hexp Hu. rewrite verifyEmail_cases, Hc.
  rewrite decide_True by done. simpl. rewrite Hu.
  eexists _, _. split; [reflexivity|]. simpl. split_and!; try done.
Qed.

Lemma verifyEmail_verifies_witness :
  ∃ r w',
    verifyEmail "c1" (world_code EmailVerification) = (Ok r, w')
    ∧ users w' !! "u1" = Some (mkUser "a@x.com" "h:pw1" true 0)
    ∧ user r !! "verified" = Some (JBool true).
Proof.
  destruct (verifyEmail_verifies "c1" (mkCode "u1" EmailVerification (1000 + ONE_HOUR_MS) 900)
              alice (world_code EmailVerification))
    as (r & w' & Hrun & Hus & _ & _ & Hv & _);
    [reflexivity | reflexivity | reflexivity | reflexivity |].
  exists r, w'. split_and!; [exact Hrun | | exact Hv].
  rewrite Hus. apply lookup_insert_eq.
Defined.

(** X14: a valid code whose user is not stored is not consumed.
    [verifyEmail] then fails with InternalError "Failed to verify
    email" and [resetPassword] with InternalError "Failed to reset
    password"; both write nothing, so the code is still stored and no
    session is deleted. *)
Theorem orphan_code_is_internal_error env id pw c w :
  codes w !! id = Some c →
  now w < code_expiresAt c →
  users w !! code_userId c = None →
  (code_type c = EmailVerification →
   verifyEmail id w
   = (Err (mkAppError INTERNAL_SERVER_ERROR "Failed to verify email"), w))
  ∧ (code_type c = PasswordReset →
     resetPassword env (mkResetPasswordParams pw id) w
     = (Err (mkAppError INTERNAL_SERVER_ERROR "Failed to reset password"), w)).
Proof.
  intros Hc Hexp Hu. rewrite verifyEmail_cases, resetPassword_cases. simpl.
  rewrite Hc. split; intros Hty; rewrite decide_True by done; simpl; by rewrite Hu.
Qed.

Lemma orphan_code_is_internal_error_witness :
  resetPassword demo_env (mkResetPasswordParams "pw2" "c1") world_dangling_code
  = (Err (mkAppError INTERNAL_SERVER_ERROR "Failed to reset password"),
     world_dangling_code).
Proof.
  apply (orphan_code_is_internal_error demo_env "c1" "pw2"
           (mkCode "u9" PasswordReset (1000 + ONE_HOUR_MS) 900) world_dangling_code);
    reflexivity.
Defined.

(** X15: a password-reset code is single use.  After [resetPassword]
    has succeeded with a code, every further [resetPassword] with that
    code, whatever the password and the clock reading, fails with
    NotFound and writes nothing. *)
Theorem resetPassword_single_use env env' params pw t r w w' :
  resetPassword env params w = (Ok r, w') →
  resetPassword env' (mkResetPasswordParams pw (reset_verificationCode params))
    (set_now t w')
  = (Err (mkAppError NOT_FOUND "Invalid or expired verification code"), set_now t w').
Proof.
  rewrite resetPassword_cases. simpl.
  destruct (codes w !! reset_verificationCode params) as [c|]; [|done].
  destruct (decide _); [|done]. simpl.
  destruct (users w !! code_userId c); [|done].
  intros [= _ <-]. rewrite resetPassword_cases. simpl. by rewrite lookup_delete_eq.
Qed.

Lemma resetPassword_single_use_witness :
  let first := resetPassword demo_env (mkResetPasswordParams "pw2" "c1")
                 (world_code PasswordReset) in
  users first.2 !! "u1" = Some (mkUser "a@x.com" "h:pw2" false 0)
  ∧ resetPassword demo_env (mkResetPasswordParams "pw3" "c1") (set_now 2000 first.2)
    = (Err (mkAppError NOT_FOUND "Invalid or expired verification code"),
       set_now 2000 first.2).
Proof.
  intros first. split; [reflexivity|].
  apply (resetPassword_single_use demo_env demo_env (mkResetPasswordParams "pw2" "c1")
           "pw3" 2000 (mkUserResult (omitPassword (mkDoc "u1" alice)))
           (world_code PasswordReset) first.2).
  reflexivity.
Defined.

(** X16: a password reset revokes the user's refresh tokens.  After
    [resetPassword] has succeeded, a refresh token that names a session
    the code's user had is refused with Unauthorized "Session expired"
    at every clock reading, whatever the session's expiry was. *)
Theorem resetPassword_revokes_refresh_tokens env env' params tok p c s r t w w' :
  resetPassword env params w = (Ok r, w') →
  codes w !! reset_verificationCode params = Some c →
  sessions w !! payload_sessionId p = Some s →
  session_userId s = code_userId c →
  verifyToken env' tok refreshTokenSignOptions = Some p →
  refreshUserAccessToken env' tok (set_now t w')
  = (Err (mkAppError UNAUTHORIZED "Session expired"), set_now t w').
Proof.
  intros Hrun Hc Hs Howner Hv. rewrite resetPassword_cases in Hrun. simpl in Hrun.
  rewrite Hc in Hrun. destruct (decide _); [|done]. simpl in Hrun.
  destruct (users w !! code_userId c); [|done]. injection Hrun as _ <-.
  rewrite refreshUserAccessToken_cases, Hv. simpl.
  rewrite (proj2 (map_lookup_filter_None _ _ _)); [done|].
  right. intros s' Hs'. simplify_eq. simpl. by intros ?.
Qed.

Lemma resetPassword_revokes_refresh_tokens_witness :
  let before := world_code PasswordReset in
  let after := (resetPassword demo_env (mkResetPasswordParams "pw2" "c1") before).2 in
  (refreshUserAccessToken demo_env "rt:s1" before).1
  = Ok (mkRefreshResult "at:u1:s1" (Some "rt:s1"))
  ∧ refreshUserAccessToken demo_env "rt:s1" (set_now 1000 after)
    = (Err (mkAppError UNAUTHORIZED "Session expired"), set_now 1000 after).
Proof.
  intros before after. split; [reflexivity|].
  apply (resetPassword_revokes_refresh_tokens demo_env demo_env
           (mkResetPasswordParams "pw2" "c1") "rt:s1" (mkPayload None "s1")
           (mkCode "u1" PasswordReset (1000 + ONE_HOUR_MS) 900)
           (mkSession "u1" None (1000 + ONE_DAY_MS) 0)
           (mkUserResult (omitPassword (mkDoc "u1" alice))) 1000 before after);
    reflexivity.
Defined.

(** ** Password-reset requests *)

(** X17: a reset request for an email no stored user has returns the
    empty result, stores no code and sends no mail; its only trace is
    the console line "SendPasswordResetError: User not found". *)
Theorem sendPasswordResetEmail_unknown_email env e w :
  (∀ id u, users w !! id = Some u → email u ≠ e) →
  sendPasswordResetEmail env e w
  = (Ok (mkResetEmailResult None None),
     add_console "SendPasswordResetError: User not found" w).
Proof.
  intros Hnone. apply find_by_email_None in Hnone.
  by rewrite sendPasswordResetEmail_cases, sendPasswordResetEmail_try_cases, Hnone.
Qed.

Lemma sendPasswordResetEmail_unknown_email_witness :
  sendPasswordResetEmail demo_env "nobody@x.com" world_alice
  = (Ok (mkResetEmailResult None None),
     add_console "SendPasswordResetError: User not found" world_alice).
Proof.
  apply (sendPasswordResetEmail_unknown_email demo_env "nobody@x.com" world_alice).
  intros id u Hu. unfold world_alice in Hu. simpl in Hu.
  apply lookup_singleton_Some in Hu as [_ <-]. discriminate.
Defined.

(** X18: a request whose mail is not delivered still uses a throttle
    slot.  When the user is found and the throttle lets the request
    pass but the mailer reports no delivery id (none, or an empty one),
    the call returns the empty result, yet the new code is stored, the
    mail is in the outbox, and the user's count of recent reset codes
    has gone up by one. *)
Theorem undelivered_request_is_counted env e u w :
  find_by_email e (users w) = Some u →
  (recent_resets (_id u) w ≤ 1)%nat →
  truthy (data_id (sendMailResponse env (reset_mail env e w))) = None →
  ∃ cid w',
    sendPasswordResetEmail env e w = (Ok (mkResetEmailResult None None), w')
    ∧ codes w !! cid = None
    ∧ codes w'
      = <[cid := mkCode (_id u) PasswordReset (now w + ONE_HOUR_MS) (now w)]> (codes w)
    ∧ outbox w' = outbox w ++ [reset_mail env e w]
    ∧ recent_resets (_id u) w' = S (recent_resets (_id u) w).
Proof.
  intros Hu Hcount Hmail.
  rewrite sendPasswordResetEmail_cases, sendPasswordResetEmail_try_cases, Hu.
  rewrite decide_True by done. unfold reset_delivery. rewrite Hmail.
  exists (next_id w). eexists. split; [reflexivity|]. simpl.
  split_and!; [apply next_id_codes | done | done |].
  unfold recent_resets. simpl. apply resets_since_insert.
  unfold recent_code, reset_code. simpl. split_and!; [done | done |].
  unfold FIVE_MINUTES_MS. lia.
Qed.

Lemma undelivered_request_is_counted_witness :
  ∃ cid w',
    sendPasswordResetEmail demo_env_empty_id "a@x.com" world_alice
    = (Ok (mkResetEmailResult None None), w')
    ∧ codes w' !! cid = Some (mkCode "u1" PasswordReset (1000 + ONE_HOUR_MS) 1000)
    ∧ recent_resets "u1" w' = 1%nat.
Proof.
  destruct (undelivered_request_is_counted demo_env_empty_id "a@x.com" (mkDoc "u1" alice)
              world_alice)
    as (cid & w' & Hrun & _ & Hcodes & _ & Hcount);
    [reflexivity | vm_compute; repeat constructor | reflexivity |].
  exists cid, w'. split_and!; [exact Hrun | | exact Hcount].
  rewrite Hcodes. apply lookup_insert_eq.
Defined.

(** X19: request and completion compose, within the hour.  The code a
    reset request stores lets [resetPassword] succeed at every clock
    reading before one hour after the request, putting the hash of the
    new password on the user the request was for and consuming the
    code; from one hour after the request on, the same call fails with
    NotFound.  When the mail was delivered the returned url carries
    that code's id and expiry. *)
Theorem reset_request_then_resetPassword env e w u :
  find_by_email e (users w) = Some u →
  (recent_resets (_id u) w ≤ 1)%nat →
  ∃ cid,
    let sent := sendPasswordResetEmail env e w in
    codes w !! cid = None
    ∧ (∀ id, truthy (data_id (sendMailResponse env (reset_mail env e w))) = Some id →
         sent.1
         = Ok (mkResetEmailResult
                 (Some (APP_ORIGIN env +:+ "/password/reset?code=" +:+ cid
                        +:+ "&exp=" +:+ pretty (now w + ONE_HOUR_MS)))
                 (Some id)))
    ∧ ∀ env' pw t,
        let complete :=
          resetPassword env' (mkResetPasswordParams pw cid) (set_now t sent.2) in
        (t < now w + ONE_HOUR_MS →
         ∃ r, complete.1 = Ok r
              ∧ users complete.2 !! _id u
                = Some (mkUser (email (fields u)) (hashValue env' pw)
                          (verified (fields u)) (user_createdAt (fields u)))
              ∧ codes complete.2 !! cid = None)
        ∧ (now w + ONE_HOUR_MS ≤ t →
           complete
           = (Err (mkAppError NOT_FOUND "Invalid or expired verification code"),
              set_now t sent.2)).
Proof.
  intros Hu Hcount. exists (next_id w). intros sent.
  pose proof (find_by_email_Some _ _ _ Hu) as [Hstored _].
  assert (codes sent.2 !! next_id w = Some (reset_code (_id u) w)
          ∧ users sent.2 = users w) as [Hcode Husers].
  { subst sent.
    rewrite sendPasswordResetEmail_cases, sendPasswordResetEmail_try_cases, Hu.
    rewrite decide_True by done.
    destruct (reset_delivery env e w); simpl; by rewrite lookup_insert_eq. }
  split_and!.
  - apply next_id_codes.
  - intros id Hid. subst sent.
    rewrite sendPasswordResetEmail_cases, sendPasswordResetEmail_try_cases, Hu.
    rewrite decide_True by done. unfold reset_delivery. by rewrite Hid.
  - intros env' pw t complete. subst complete. rewrite resetPassword_cases. simpl.
    rewrite Hcode. split; intros Ht.
    + rewrite decide_True by (split; [done | simpl; lia]). simpl.
      rewrite Husers, Hstored. simpl. eexists. split; [reflexivity|].
      split; [apply lookup_insert_eq | apply lookup_delete_eq].
    + rewrite decide_False; [done|]. intros [_ Hexp]. simpl in Hexp. lia.
Qed.

Lemma reset_request_then_resetPassword_witness :
  ∃ cid,
    let sent := sendPasswordResetEmail demo_env "a@x.com" world_alice in
    sent.1
    = Ok (mkResetEmailResult
            (Some ("http://app/password/reset?code=" +:+ cid +:+ "&exp=3601000"))
            (Some "m1"))
    ∧ users (resetPassword demo_env (mkResetPasswordParams "pw2" cid)
               (set_now 2000 sent.2)).2 !! "u1"
      = Some (mkUser "a@x.com" "h:pw2" false 0)
    ∧ resetPassword demo_env (mkResetPasswordParams "pw2" cid)
        (set_now (1000 + ONE_HOUR_MS) sent.2)
      = (Err (mkAppError NOT_FOUND "Invalid or expired verification code"),
         set_now (1000 + ONE_HOUR_MS) sent.2).
Proof.
  destruct (reset_request_then_resetPassword demo_env "a@x.com" world_alice
              (mkDoc "u1" alice) eq_refl)
    as (cid & _ & Hurl & Hcomplete); [vm_compute; repeat constructor|].
  exists cid. intros sent. split_and!.
  - exact (Hurl "m1" eq_refl).
  - destruct (proj1 (Hcomplete demo_env "pw2" 2000) eq_refl) as (r & _ & Huser & _).
    exact Huser.
  - apply (proj2 (Hcomplete demo_env "pw2" (1000 + ONE_HOUR_MS))). reflexivity.
Defined.

(** ** Registration and verification compose *)

(** X20: the code a registration mails verifies the registered user.
    [createAccount] sends the url of the code it stored; [verifyEmail]
    with that code's id succeeds at every clock reading before one year
    after the registration, marks exactly the registered user verified,
    keeps the session the registration created, and consumes the code;
    from one year after the registration on it fails with NotFound. *)
Theorem createAccount_then_verifyEmail env data w :
  find_by_email (create_email data) (users w) = None →
  ∃ uid cid r w',
    createAccount env data w = (Ok r, w')
    ∧ outbox w' = outbox w ++ [verify_mail env (create_email data) cid]
    ∧ ∀ t,
        (t < now w + ONE_YEAR_MS →
         ∃ r2 w2 u,
           verifyEmail cid (set_now t w') = (Ok r2, w2)
           ∧ user r2 !! "verified" = Some (JBool true)
           ∧ user r2 !! "_id" = auth_user r !! "_id"
           ∧ users w2 !! uid = Some u ∧ verified u = true
           ∧ email u = create_email data
           ∧ sessions w2 = sessions w'
           ∧ codes w2 !! cid = None)
        ∧ (now w + ONE_YEAR_MS ≤ t →
           verifyEmail cid (set_now t w')
           = (Err (mkAppError NOT_FOUND "Invalid or expired verification code"),
              set_now t w')).
Proof.
  intros Hfree.
  destruct (createAccount_run env data w Hfree)
    as (uid & cid & sid & w' & Hrun & _ & _ & _ & Hus & Hcs & _ & Hout & _).
  exists uid, cid. eexists _, w'. split; [exact Hrun|]. split; [exact Hout|].
  intros t. rewrite verifyEmail_cases. simpl. rewrite Hcs, lookup_insert_eq.
  split; intros Ht.
  - rewrite decide_True by (split; [done | simpl; lia]). simpl.
    rewrite Hus, lookup_insert_eq. eexists _, _, _. split; [reflexivity|].
    simpl. split_and!;
      [done | done | apply lookup_insert_eq | done | done | done | apply lookup_delete_eq].
  - rewrite decide_False; [done|]. intros [_ Hexp]. simpl in Hexp. lia.
Qed.

Lemma createAccount_then_verifyEmail_witness :
  ∃ cid r w' r2 w2,
    createAccount demo_env (mkCreateAccountParams "b@x.com" "pw" None) world_alice
    = (Ok r, w')
    ∧ verifyEmail cid (set_now 5000 w') = (Ok r2, w2)
    ∧ user r2 !! "verified" = Some (JBool true)
    ∧ verifyEmail cid (set_now 6000 w2)
      = (Err (mkAppError NOT_FOUND "Invalid or expired verification code"),
         set_now 6000 w2).
Proof.
  destruct (createAccount_then_verifyEmail demo_env
              (mkCreateAccountParams "b@x.com" "pw" None) world_alice eq_refl)
    as (uid & cid & r & w' & Hrun & _ & Hverify).
  destruct (proj1 (Hverify 5000) eq_refl)
    as (r2 & w2 & u & Hrun2 & Hv & _ & _ & _ & _ & _ & Hgone).
  exists cid, r, w', r2, w2. split_and!; [exact Hrun | exact Hrun2 | exact Hv |].
  rewrite verifyEmail_cases. simpl. rewrite Hgone. reflexivity.
Defined.

(** ** What calls write *)

(** X21: a stored code is never changed.  After any call a stored code
    is stored exactly as it was, or it is gone and the call was the
    [verifyEmail] or [resetPassword] that named it. *)
Theorem stored_codes_are_immutable env op w id c :
  codes w !! id = Some c →
  codes (call env op w).2 !! id = Some c
  ∨ (codes (call env op w).2 !! id = None ∧ consumes id op).
Proof.
  intros Hc. pose proof (call_codes env op w) as Hcall. cbv zeta in Hcall.
  destruct Hcall as [Hcs | [(id' & c' & Hnew & Hcs & _) | (id' & Hop & _ & Hcs)]];
    rewrite Hcs.
  - by left.
  - left. rewrite lookup_insert_ne by congruence. done.
  - destruct (decide (id' = id)) as [-> | Hne].
    + right. by rewrite lookup_delete_eq.
    + left. by rewrite lookup_delete_ne.
Qed.

Lemma stored_codes_are_immutable_witness :
  codes (call demo_env (SendPasswordResetEmail "a@x.com") (world_code PasswordReset)).2
    !! "c1"
  = Some (mkCode "u1" PasswordReset (1000 + ONE_HOUR_MS) 900).
Proof.
  destruct (stored_codes_are_immutable demo_env (SendPasswordResetEmail "a@x.com")
              (world_code PasswordReset) "c1"
              (mkCode "u1" PasswordReset (1000 + ONE_HOUR_MS) 900) eq_refl)
    as [Hkept | [_ []]].
  exact Hkept.
Defined.

Lemma call_failure_world env op w e w' : call env op w = (Err e, w') → w' = w.
Proof.
  unfold call, mbind, M_bind, mret, M_ret. destruct op as [data|params|tok|code|em|params].
  - destruct (find_by_email (create_email data) (users w)) as [u|] eqn:Hfind.
    + rewrite (createAccount_taken _ _ _ _ Hfind). by intros [= _ <-].
    + destruct (createAccount_run env data w Hfind)
        as (uid & cid & sid & w1 & Hrun & _). by rewrite Hrun.
  - rewrite loginUser_cases. destruct (find_by_email _ _); [done | by intros [= _ <-]].
  - rewrite refreshUserAccessToken_cases.
    destruct (verifyToken _ _ _) as [p|]; simpl; [|by intros [= _ <-]].
    destruct (sessions w !! _) as [s|]; [|by intros [= _ <-]].
    repeat destruct (decide _); try done; by intros [= _ <-].
  - rewrite verifyEmail_cases. destruct (codes w !! code) as [c|]; [|by intros [= _ <-]].
    destruct (decide _); [|by intros [= _ <-]]. simpl.
    destruct (users w !! code_userId c); [done | by intros [= _ <-]].
  - rewrite sendPasswordResetEmail_cases.
    by destruct (sendPasswordResetEmail_try env em w) as [[?|?] ?].
  - rewrite resetPassword_cases. simpl.
    destruct (codes w !! _) as [c|]; [|by intros [= _ <-]].
    destruct (decide _); [|by intros [= _ <-]]. simpl.
    destruct (users w !! code_userId c); [done | by intros [= _ <-]].
Qed.

(** X22: a call that fails has written nothing, and each operation fails
    in its own kinds only: [createAccount] with Conflict, [loginUser]
    and [refreshUserAccessToken] with Unauthorized, [verifyEmail] and
    [resetPassword] with NotFound or InternalError, and
    [sendPasswordResetEmail] not at all. *)
Theorem failing_call_writes_nothing env op w e w' :
  call env op w = (Err e, w') →
  w' = w
  ∧ match op with
    | CreateAccount _ => e = mkAppError CONFLICT "Email already in use"
    | LoginUser _ => e = mkAppError UNAUTHORIZED "Invalid email or password"
    | RefreshUserAccessToken _ =>
        e = mkAppError UNAUTHORIZED "Invalid refresh token"
        ∨ e = mkAppError UNAUTHORIZED "Session expired"
    | VerifyEmail _ =>
        e = mkAppError NOT_FOUND "Invalid or expired verification code"
        ∨ e = mkAppError INTERNAL_SERVER_ERROR "Failed to verify email"
    | SendPasswordResetEmail _ => False
    | ResetPassword _ =>
        e = mkAppError NOT_FOUND "Invalid or expired verification code"
        ∨ e = mkAppError INTERNAL_SERVER_ERROR "Failed to reset password"
    end.
Proof.
  intros Hcall. split; [by eapply call_failure_world|]. revert Hcall.
  unfold call, mbind, M_bind, mret, M_ret. destruct op as [data|params|tok|code|em|params].
  - destruct (find_by_email (create_email data) (users w)) as [u|] eqn:Hfind.
    + rewrite (createAccount_taken _ _ _ _ Hfind). by intros [= <- _].
    + destruct (createAccount_run env data w Hfind)
        as (uid & cid & sid & w1 & Hrun & _). by rewrite Hrun.
  - rewrite loginUser_cases. destruct (find_by_email _ _); [done | by intros [= <- _]].
  - rewrite refreshUserAccessToken_cases.
    destruct (verifyToken _ _ _) as [p|]; simpl; [|intros [= <- _]; by left].
    destruct (sessions w !! _) as [s|]; [|intros [= <- _]; by right].
    repeat destruct (decide _); try done; intros [= <- _]; by right.
  - rewrite verifyEmail_cases.
    destruct (codes w !! code) as [c|]; [|intros [= <- _]; by left].
    destruct (decide _); [|intros [= <- _]; by left]. simpl.
    destruct (users w !! code_userId c); [done | intros [= <- _]; by right].
  - rewrite sendPasswordResetEmail_cases.
    by destruct (sendPasswordResetEmail_try env em w) as [[?|?] ?].
  - rewrite resetPassword_cases. simpl.
    destruct (codes w !! _) as [c|]; [|intros [= <- _]; by left].
    destruct (decide _); [|intros [= <- _]; by left]. simpl.
    destruct (users w !! code_userId c); [done | intros [= <- _]; by right].
Qed.

Lemma failing_call_writes_nothing_witness :
  let w := world_code PasswordReset in
  (call demo_env (VerifyEmail "c1") w).2 = w
  ∧ (call demo_env (VerifyEmail "c1") w).1
    = Err (mkAppError NOT_FOUND "Invalid or expired verification code").
Proof.
  intros w.
  destruct (failing_call_writes_nothing demo_env (VerifyEmail "c1") w
              (mkAppError NOT_FOUND "Invalid or expired verification code")
              (call demo_env (VerifyEmail "c1") w).2 eq_refl) as [Hw _].
  split; [exact Hw | reflexivity].
Defined.

(** X23: each collection has its writers.  A call that leaves the users
    different was a [createAccount], [verifyEmail] or [resetPassword];
    one that leaves the sessions different was a [createAccount],
    [loginUser], [refreshUserAccessToken] or [resetPassword]; one that
    leaves the codes different was a [createAccount], [verifyEmail],
    [sendPasswordResetEmail] or [resetPassword]; and no call moves the
    clock. *)
Theorem collections_have_their_writers env op w :
  let w' := (call env op w).2 in
  (users w' ≠ users w → writes_users op)
  ∧ (sessions w' ≠ sessions w → writes_sessions op)
  ∧ (codes w' ≠ codes w → writes_codes op)
  ∧ now w' = now w.
Proof.
  intros w'. subst w'. split_and!.
  - intros Hne. pose proof (call_users env op w) as Hcall. cbv zeta in Hcall.
    destruct Hcall as [? | [(? & ? & ? & -> & _) | [(? & ? & ? & -> & _)
      | (? & ? & ? & -> & _)]]]; done.
  - intros Hne. pose proof (call_sessions env op w) as Hcall. cbv zeta in Hcall.
    destruct Hcall as [? | [(? & ? & _ & _ & _ & [[? ->] | [? ->]])
      | [(? & ? & ? & -> & _) | (? & ? & -> & _)]]]; done.
  - intros Hne. pose proof (call_codes env op w) as Hcall. cbv zeta in Hcall.
    destruct Hcall as [? | [(? & ? & _ & _ & _ & [(? & -> & _) | (? & -> & _)])
      | (id & Hop & _)]]; try done.
    by destruct op.
  - apply call_now.
Qed.

(** ** Ownership *)

(** X24: every stored code refers to a stored user, and stays so.  If
    it holds of a store it holds after any call and after any run of
    calls; it holds of every store built from the empty one. *)
Theorem codes_stay_owned env op w :
  owned_codes w →
  owned_codes (call env op w).2
  ∧ (∀ calls, owned_codes (serve calls w))
  ∧ (∀ calls t, owned_codes (serve calls (empty_world t))).
Proof.
  intros Hw. split_and!.
  - by apply call_owned_codes.
  - intros calls. by apply serve_owned_codes.
  - intros calls t. apply serve_owned_codes, empty_world_owned_codes.
Qed.

Lemma codes_stay_owned_witness :
  owned_codes
    (serve [(demo_env, 1000, SendPasswordResetEmail "a@x.com");
            (demo_env, 2000, CreateAccount (mkCreateAccountParams "b@x.com" "pw" None))]
       world_alice).
Proof.
  destruct (codes_stay_owned demo_env (VerifyEmail "") world_alice) as (_ & Hserve & _).
  - apply (@bool_decide_unpack _ (owned_codes_dec _)). vm_compute. exact I.
  - apply Hserve.
Defined.

Lemma owned_sessions_users w f :
  (∀ k, is_Some (users w !! k) → is_Some (f (users w) !! k)) →
  owned_sessions w → owned_sessions (set_users f w).
Proof. intros Hf Hw id s Hs. apply Hf. by eapply Hw. Qed.

Lemma owned_sessions_insert w id s :
  is_Some (users w !! session_userId s) →
  owned_sessions w → owned_sessions (set_sessions (insert id s) w).
Proof. intros Hs Hw. by apply map_Forall_insert_2. Qed.

Lemma owned_sessions_same w w' :
  users w' = users w → sessions w' = sessions w → owned_sessions w → owned_sessions w'.
Proof. intros Hus Hss Hw id s. rewrite Hus, Hss. apply Hw. Qed.

Lemma call_owned_sessions env op w : owned_sessions w → owned_sessions (call env op w).2.
Proof.
  intros Hw. rewrite call_world. destruct op as [data|params|tok|code|e|params].
  - destruct (find_by_email (create_email data) (users w)) as [u|] eqn:Hfind.
    + by rewrite (createAccount_taken _ _ _ _ Hfind).
    + destruct (createAccount_run env data w Hfind)
        as (uid & cid & sid & w' & Hrun & _ & _ & _ & Hus & _ & Hss & _).
      rewrite Hrun. simpl. intros id s. rewrite Hus, Hss. revert id s.
      apply map_Forall_insert_2; [simpl; rewrite lookup_insert_eq; by eexists|].
      intros id s Hs. apply lookup_insert_is_Some'. right. by eapply Hw.
  - rewrite loginUser_cases.
    destruct (find_by_email _ _) as [u|] eqn:Hu; [|done].
    apply find_by_email_Some in Hu as [Hu _]. simpl.
    apply owned_sessions_insert; [simpl; by eexists | done].
  - rewrite refreshUserAccessToken_cases.
    destruct (verifyToken _ _ _) as [p|]; simpl; [|done].
    destruct (sessions w !! _) as [s|] eqn:Hs; [|done].
    destruct (decide (now w < _)); [|done]. destruct (decide (_ ≤ _)); [|done].
    simpl. apply owned_sessions_insert; [|done]. simpl. by eapply Hw.
  - rewrite verifyEmail_cases. destruct (codes w !! code) as [c|]; [|done].
    destruct (decide _); [|done]. simpl.
    destruct (users w !! code_userId c) as [u|] eqn:Hu; [|done]. simpl.
    intros id s Hs. simpl in *. apply lookup_insert_is_Some'. right. by eapply Hw.
  - destruct (sendPasswordResetEmail_codes env e w) as (Hus & _).
    pose proof (sendPasswordResetEmail_keeps env e w) as [_ Hsub].
    intros id s Hs. rewrite Hus.
    assert (sessions (sendPasswordResetEmail env e w).2 = sessions w) as Hss.
    { rewrite sendPasswordResetEmail_cases, sendPasswordResetEmail_try_cases.
      destruct (find_by_email e (users w)); [|done].
      destruct (decide _); [|done]. by destruct (reset_delivery env e w). }
    rewrite Hss in Hs. by eapply Hw.
  - rewrite resetPassword_cases. simpl.
    destruct (codes w !! _) as [c|]; [|done].
    destruct (decide _); [|done]. simpl.
    destruct (users w !! code_userId c) as [u|] eqn:Hu; [|done]. simpl.
    intros id s Hs. simpl in *. apply map_lookup_filter_Some in Hs as [Hs _].
    apply lookup_insert_is_Some'. right. by eapply Hw.
Qed.

(** X25: every stored session belongs to a stored user, and stays so.
    If it holds of a store it holds after any call and after any run of
    calls; it holds of every store built from the empty one. *)
Theorem sessions_stay_owned env op w :
  owned_sessions w →
  owned_sessions (call env op w).2
  ∧ (∀ calls, owned_sessions (serve calls w))
  ∧ (∀ calls t, owned_sessions (serve calls (empty_world t))).
Proof.
  intros Hw.
  assert (∀ calls w0, owned_sessions w0 → owned_sessions (serve calls w0)) as Hserve.
  { induction calls as [|[[env' t] op'] rest IH]; intros w0 Hw0; [done|].
    simpl. apply IH. by apply call_owned_sessions. }
  split_and!.
  - by apply call_owned_sessions.
  - intros calls. by apply Hserve.
  - intros calls t. apply Hserve, map_Forall_empty.
Qed.

Lemma sessions_stay_owned_witness :
  owned_sessions
    (serve [(demo_env, 1000, LoginUser (mkLoginParams "a@x.com" "pw1" None));
            (demo_env, 2000, CreateAccount (mkCreateAccountParams "b@x.com" "pw" None))]
       (world_session ONE_DAY_MS)).
Proof.
  destruct (sessions_stay_owned demo_env (VerifyEmail "") (world_session ONE_DAY_MS))
    as (_ & Hserve & _).
  - intros id s Hs. unfold world_session in Hs. simpl in Hs.
    apply lookup_singleton_Some in Hs as [_ <-]. simpl. by eexists.
  - apply Hserve.
Defined.

(** ** The throttle window *)

(** X26: only the user's own recent password-reset codes count.  When
    every stored password-reset code of the user is at least five
    minutes old, a reset request for that user stores a new code,
    however many codes other users hold, however many email-verification
    codes the user holds, and even if a code of the user is exactly five
    minutes old. *)
Theorem throttle_reopens env e u w :
  find_by_email e (users w) = Some u →
  (∀ id c, codes w !! id = Some c → code_userId c = _id u →
           code_type c = PasswordReset →
           code_createdAt c + FIVE_MINUTES_MS ≤ now w) →
  ∃ cid,
    codes w !! cid = None
    ∧ codes (sendPasswordResetEmail env e w).2
      = <[cid := mkCode (_id u) PasswordReset (now w + ONE_HOUR_MS) (now w)]> (codes w).
Proof.
  intros Hu Hold.
  assert (recent_resets (_id u) w = 0%nat) as Hzero.
  { unfold recent_resets. apply map_size_empty_iff, map_empty. intros id.
    apply map_lookup_filter_None. right. intros c Hc (Huid & Hty & Hnew). simpl in *.
    pose proof (Hold id c Hc Huid Hty). lia. }
  exists (next_id w). split; [apply next_id_codes|].
  rewrite sendPasswordResetEmail_cases, sendPasswordResetEmail_try_cases, Hu.
  rewrite decide_True by lia. by destruct (reset_delivery env e w).
Qed.

Lemma throttle_reopens_witness :
  let w := set_now (900 + FIVE_MINUTES_MS) (world_code PasswordReset) in
  ∃ cid,
    codes (sendPasswordResetEmail demo_env "a@x.com" w).2 !! cid
    = Some (mkCode "u1" PasswordReset (900 + FIVE_MINUTES_MS + ONE_HOUR_MS)
              (900 + FIVE_MINUTES_MS)).
Proof.
  intros w.
  destruct (throttle_reopens demo_env "a@x.com" (mkDoc "u1" alice) w eq_refl)
    as (cid & _ & Hcodes).
  - intros id c Hc _ _. unfold w, world_code in Hc. simpl in Hc.
    apply lookup_singleton_Some in Hc as [_ <-]. reflexivity.
  - exists cid. rewrite Hcodes. apply lookup_insert_eq.
Defined.

(** ** The throttle across operations *)







(** X28: the two branches of the check.  For a registered address, a
    reset request that finds two or more stored password-reset codes of
    the user created within the last five minutes raises TooManyRequests
    inside the [try] block and stores no code; one that finds at most
    one stores a new password-reset code for that user, expiring an hour
    from now.  Hence a run of nothing but requests for that address,
    served within one five-minute window, stores at most two codes, and
    after two have been stored the third request stores none. *)
Theorem reset_throttle env e u w :
  find_by_email e (users w) = Some u →
  ((2 ≤ recent_resets (_id u) w)%nat →
   sendPasswordResetEmail_try env e w
   = (Err (mkAppError TOO_MANY_REQUESTS "Too many requests, please try again later"), w)
   ∧ codes (sendPasswordResetEmail env e w).2 = codes w)
  ∧ ((recent_resets (_id u) w ≤ 1)%nat →
     codes w !! next_id w = None
     ∧ codes (sendPasswordResetEmail env e w).2
       = <[next_id w
           := mkCode (_id u) PasswordReset (now w + ONE_HOUR_MS) (now w)]> (codes w))
  ∧ (∀ hi requests,
       Forall (in_window hi) requests →
       (size (codes (serve_reset_requests e requests w)) ≤ size (codes w) + 2)%nat)
  ∧ (∀ hi first second third,
       Forall (in_window hi) [first; second; third] →
       size (codes (serve_reset_requests e [first; second] w)) = (size (codes w) + 2)%nat →
       codes (serve_reset_requests e [first; second; third] w)
       = codes (serve_reset_requests e [first; second] w)).
Proof.
  intros Hu. split_and!.
  - intros Hcount.
    rewrite sendPasswordResetEmail_cases, sendPasswordResetEmail_try_cases, Hu.
    by rewrite decide_False by lia.
  - intros Hcount. split; [apply next_id_codes|].
    rewrite sendPasswordResetEmail_cases, sendPasswordResetEmail_try_cases, Hu.
    rewrite decide_True by done. by destruct (reset_delivery env e w).
  - intros hi requests Hwin. by eapply serve_reset_requests_bound.
  - intros hi [env1 t1] [env2 t2] [env3 t3] Hwin Htwo.
    pose proof (serve_reset_requests_bound e _ hi w u Hu Hwin) as Hbound.
    cbn [serve_reset_requests] in *.
    set (w2 := (sendPasswordResetEmail env2 e
                  (set_now t2 (sendPasswordResetEmail env1 e (set_now t1 w)).2)).2) in *.
    destruct (sendPasswordResetEmail_codes env3 e (set_now t3 w2))
      as (_ & _ & [Hsame | (u' & _ & _ & Hnew)]); [done|].
    exfalso. rewrite Hnew, (size_insert_fresh_code (set_now t3 w2)) in Hbound.
    change (codes (set_now t3 w2)) with (codes w2) in Hbound. lia.
Qed.

Lemma reset_throttle_witness :
  let requests := [(demo_env, 1000); (demo_env, 2000); (demo_env_mail_down, 3000)] in
  find_by_email "a@x.com" (users world_alice) = Some (mkDoc "u1" alice)
  ∧ (size (codes (serve_reset_requests "a@x.com" (take 2 requests) world_alice)) = 2)%nat
  ∧ (size (codes (serve_reset_requests "a@x.com" requests world_alice)) ≤ 0 + 2)%nat
  ∧ codes (serve_reset_requests "a@x.com" requests world_alice)
    = codes (serve_reset_requests "a@x.com" (take 2 requests) world_alice).
Proof.
  intros requests.
  destruct (reset_throttle demo_env "a@x.com" (mkDoc "u1" alice) world_alice eq_refl)
    as (_ & _ & Hbound & Hthird).
  assert (Hwin : Forall (in_window 3000) requests).
  { repeat constructor; vm_compute; discriminate. }
  split_and!.
  - reflexivity.
  - reflexivity.
  - exact (Hbound 3000 requests Hwin).
  - exact (Hthird 3000 _ _ _ Hwin eq_refl).
Defined.
